(** * Diffusion-based anomaly detection: orchestration and sampling core

    A shallow embedding of [src/main.py] (training) and
    [src/inference_ddim.py] (inference), together with the numeric core
    they drive (noise schedule, DDIM reverse sampler, anomaly mapping).

    Conventions.
    - Python [float]s and tensor entries are idealised as real numbers [R];
      the beta schedule, whose constants are decimal fractions, is kept in
      exact rationals [Q] so that it can be evaluated.
    - Python [int]s used as sizes and counters are [nat]; those that are
      only passed around are [Z].
    - A [dict], a [Counter] and the directory tree are finite maps.
    - Exceptions, the random generator, the file system and the calls made
      to loggers and external collaborators are threaded through a state
      and error monad [M] over a [world]. *)

From Stdlib Require Import ZArith QArith Qround Reals Qreals Lra Lia Psatz.
From stdpp Require Import base strings pretty list gmap.

Set Warnings "-register-all,-abstract-large-number".

(** ** Python primitives *)

Module Py.

(** [int(x)] on a float truncates toward zero. *)
Definition int (x : Q) : Z := Z.quot (Qnum x) (Zpos (Qden x)).

(** [l[:-k]]: everything but the last [k] items (all of them dropped when
    the list is shorter than [k]). *)
Definition drop_last {A} (k : nat) (l : list A) : list A :=
  take (length l - k) l.

(** [range(n)]. *)
Definition range (n : nat) : list nat := seq 0 n.

(** [enumerate(l)]. *)
Definition enumerate {A} (l : list A) : list (nat * A) :=
  zip (seq 0 (length l)) l.

(** JSON-serialisable values, as [json.dumps] writes and [json.loads]
    reads them (a tuple is written as a list). *)
Inductive json :=
| JNull
| JBool (b : bool)
| JInt (n : Z)
| JFloat (x : R)
| JStr (s : string)
| JList (l : list json).

Abbreviation dict := (gmap string json).

(** [d.get(key, default)]. *)
Definition get (d : dict) (key : string) (dflt : json) : json :=
  default dflt (d !! key).

Inductive exn :=
| IndexError
| KeyError (key : string)
| ZeroDivisionError
| RuntimeError (msg : string)
| FileNotFoundError (path : string)
| NameError (name : string)
| ConfigError
| ShapeMismatchError.

Inductive result (A : Type) :=
| Ok (a : A)
| Raise (e : exn).
Arguments Ok {A} a.
Arguments Raise {A} e.

(** [collections.Counter] restricted to what the program uses: a mapping
    from metric name to a float. *)
Abbreviation Counter := (gmap string R).

(** [c.update(m)]: every count of [m] is added to the count [c] holds for
    that key (zero when absent). *)
Definition Counter_update (c m : Counter) : Counter :=
  merge (λ oc om,
           match om with
           | Some count => Some (count + default 0 oc)%R
           | None => oc
           end) c m.

End Py.

Import Py.

(** ** Tensors and the torch operations the program calls *)

(** A dense tensor: its shape and its entries in row-major order. *)
Record tensor := Tensor { shape : list nat; data : list R }.

(** [state_dict()] of a network: parameter name to tensor. *)
Abbreviation state_dict := (gmap string tensor).

(** A [UNet2DModel]: the keyword arguments it was constructed from and its
    parameters. *)
Record unet := UNet { unet_config : dict; unet_state : state_dict }.

(** [transforms.GaussianBlur(kernel_size, sigma)]. *)
Record GaussianBlur := { kernel_size : Z; sigma : Z }.

Module Torch.

Definition numel (s : list nat) : nat := foldr Nat.mul 1 s.

Definition channels (t : tensor) : nat :=
  match shape t with
  | _ :: c :: _ => c
  | _ => 0
  end.

(** The entries of batch item [b]. *)
Definition slab (t : tensor) (b : nat) : list R :=
  let k := numel (tail (shape t)) in take k (drop (b * k) (data t)).

Definition same_outer (n : nat) (rest : list nat) (t : tensor) : bool :=
  match shape t with
  | n' :: _ :: rest' => bool_decide (n' = n ∧ rest' = rest)
  | _ => false
  end.

(** [torch.cat(ts, dim=1)]: all sizes but the one at dimension 1 must
    agree; the parts are laid side by side within every batch item. *)
Definition cat1 (ts : list tensor) : result tensor :=
  match ts with
  | [] => Raise (RuntimeError "torch.cat(): expected a non-empty list of Tensors")
  | t0 :: _ =>
      match shape t0 with
      | n :: _ :: rest =>
          if forallb (same_outer n rest) ts
          then Ok {| shape := n :: sum_list (channels <$> ts) :: rest;
                     data := concat ((λ b, concat ((λ t, slab t b) <$> ts)) <$> seq 0 n) |}
          else Raise (RuntimeError "Sizes of tensors must match except in dimension 1")
      | _ => Raise IndexError
      end
  end.

Section Interpolate.

(** The resampled entries; their values are the library's business. *)
Variable bilinear : tensor → nat → nat → list R.

(** [F.interpolate(x, size=(h, w), mode='bilinear')]: defined on 4-D input
    only, keeps batch and channel sizes. *)
Definition interpolate (x : tensor) (h w : nat) : result tensor :=
  match shape x with
  | [n; c; _; _] => Ok {| shape := [n; c; h; w]; data := bilinear x h w |}
  | _ => Raise (RuntimeError "Got non-4D input, but bilinear mode needs 4D input")
  end.

End Interpolate.

End Torch.

(** ** The world: files, random generator, observable calls *)

Inductive file :=
| FJson (d : dict)
| FCheckpoint (sd : state_dict).

(** Calls whose arguments the properties below speak about. *)
Inductive event :=
| EvExtractEndpoints (imgs : tensor)
| EvRunInferenceStep (btc_idx : nat) (imgs : tensor) (model : unet) (noise_kind : json)
| EvPredict (sample : tensor) (t : nat) (cond : tensor)
| EvDiffMapToAnomalyMap (diff_maps : tensor) (threshold : option R) (blur : GaussianBlur)
| EvSaveArgs (dir name : string) (content : dict)
| EvAddScalars (main_tag : string) (tag_scalar_dict : Counter) (global_step : nat)
| EvAddScalar (tag : string) (value : R) (global_step : nat)
| EvAddHparams (hparams : dict) (metrics : Counter)
| EvPostfix (train_loss test_loss : R) (scores : Counter)
| EvPrint (scores : Counter).

Record world := World {
  files : gmap string file;
  dirs : gset string;
  rng : nat;
  trace : list event
}.

Definition M (A : Type) : Type := world → result A * world.

#[global] Instance M_ret : MRet M := λ A a w, (Ok a, w).

#[global] Instance M_bind : MBind M := λ A B f m w,
  match m w with
  | (Ok a, w') => f a w'
  | (Raise e, w') => (Raise e, w')
  end.

Definition raise {A} (e : exn) : M A := λ w, (Raise e, w).

Definition lift {A} (r : result A) : M A := λ w, (r, w).

Definition emit (e : event) : M unit := λ w,
  (Ok (), {| files := files w; dirs := dirs w; rng := rng w; trace := trace w ++ [e] |}).

(** Draws the next state of the random generator. *)
Definition draw : M nat := λ w,
  (Ok (rng w), {| files := files w; dirs := dirs w; rng := S (rng w); trace := trace w |}).

Definition write_file (path : string) (f : file) : M unit := λ w,
  (Ok (), {| files := <[path := f]> (files w); dirs := dirs w; rng := rng w; trace := trace w |}).

Definition read_file (path : string) : M file := λ w,
  match files w !! path with
  | Some f => (Ok f, w)
  | None => (Raise (FileNotFoundError path), w)
  end.

(** [if not os.path.exists(d): os.makedirs(d)]. *)
Definition ensure_dir (d : string) : M unit := λ w,
  (Ok (), {| files := files w; dirs := {[d]} ∪ dirs w; rng := rng w; trace := trace w |}).

(** [for x in l: body x], threading a loop-carried value. *)
Fixpoint for_each {A S} (l : list A) (body : A → S → M S) (s : S) : M S :=
  match l with
  | [] => mret s
  | x :: l' => s' ← body x s; for_each l' body s'
  end.

(** ** Elementwise arithmetic on tensors *)

Module TensorOps.

Local Open Scope R_scope.

Definition same_shape (x y : tensor) : bool :=
  bool_decide (shape x = shape y ∧ length (data x) = length (data y)).

Definition scale (a : R) (x : tensor) : tensor :=
  {| shape := shape x; data := Rmult a <$> data x |}.

Definition add (x y : tensor) : tensor :=
  {| shape := shape x; data := zip_with Rplus (data x) (data y) |}.

Definition sub (x y : tensor) : tensor :=
  {| shape := shape x; data := zip_with Rminus (data x) (data y) |}.

Definition abs (x : tensor) : tensor :=
  {| shape := shape x; data := Rabs <$> data x |}.

End TensorOps.

(** ** NoiseSchedule *)

(** The scheduler classes the programs construct ([DDPMScheduler],
    [DDIMScheduler] of [schedulers/]) are not among the sources; what
    follows is written from sections 3 and 4.1 of the specification. *)
Module NoiseSchedule.

Local Open Scope Q_scope.

(** Modelled from the spec: the schedulers' beta range is missing; section
    4.1 names the two constants 1e-4 and 2e-2. *)
Definition beta_start : Q := 1 # 10000.

(** Modelled from the spec: the upper end of the beta range (section 4.1). *)
Definition beta_end : Q := 2 # 100.

(** Modelled from the spec: the schedulers' linear beta schedule is
    missing; section 4.1 has beta interpolated linearly between the two
    constants across the [T] steps, entry [t] of
    [linspace(beta_start, beta_end, T)]. *)
Definition linear_beta (T t : nat) : Q :=
  if (T <=? 1)%nat then beta_start
  else beta_start
       + inject_Z (Z.of_nat t) * (beta_end - beta_start) / inject_Z (Z.of_nat (T - 1)).

(** Modelled from the spec: the schedulers' state is missing; section 3
    has a schedule hold [beta_t] for every timestep of a fixed total. *)
Record schedule := Schedule {
  num_train_timesteps : nat;
  beta : nat → Q
}.

(** Modelled from the spec: [alpha_t = 1 - beta_t] (section 3). *)
Definition alpha (s : schedule) (t : nat) : Q := 1 - beta s t.

(** Modelled from the spec: [alpha_cumprod_t], the product of the alphas up
    to and including [t] (section 3). *)
Fixpoint alpha_cumprod (s : schedule) (t : nat) : Q :=
  match t with
  | O => alpha s O
  | S t' => alpha_cumprod s t' * alpha s t
  end.

(** Modelled from the spec: the schedulers' constructor is missing;
    section 4.1 has [build(T, kind)] fail with [ConfigError] when [T <= 0]
    or the kind is not recognised, the linear kind being the one it
    describes. *)
Definition build (T : nat) (beta_schedule_kind : string) : result schedule :=
  if (T =? 0)%nat then Raise ConfigError
  else if String.eqb beta_schedule_kind "linear"
       then Ok {| num_train_timesteps := T; beta := linear_beta T |}
       else Raise ConfigError.

(** Modelled from the spec: the schedulers' timestep spacing is missing;
    section 4.1 has the "leading" spacing select [{0, stride, 2*stride, ...}]
    with [stride = T / num_inference_steps] rounded down, in increasing
    order. *)
Definition leading_timesteps (s : schedule) (num_inference_steps : nat) : list nat :=
  let stride := (num_train_timesteps s / num_inference_steps)%nat in
  (λ k, (k * stride)%nat) <$> seq 0 num_inference_steps.

End NoiseSchedule.

(** ** ForwardDiffuser and DDIMSampler *)

(** [schedulers/scheduling_ddim.py] and [utils/visualize.py]
    ([generate_samples]) are not among the sources; what follows is written
    from sections 4.2 and 4.3 of the specification, step by step. *)
Module DDIM.

Import TensorOps NoiseSchedule.
Local Open Scope R_scope.

(** Modelled from the spec: the class [DDIMScheduler] is missing; the
    programs construct it as [DDIMScheduler(train_steps, start_at_timestep,
    beta_schedule=..., timestep_spacing="leading",
    reconstruction_weight=...)], and section 4.3 has it hold the noise
    schedule and the reconstruction weight. *)
Record DDIMScheduler := {
  noise_schedule : schedule;
  scheduler_start : nat;
  reconstruction_weight : R
}.

(** Modelled from the spec: the constructor of [DDIMScheduler] is missing;
    it builds the noise schedule (section 4.1) and keeps its arguments. *)
Definition make_scheduler (train_steps start_at_timestep : nat)
    (beta_schedule : string) (reconstruction_weight : R) : result DDIMScheduler :=
  match build train_steps beta_schedule with
  | Ok s => Ok {| noise_schedule := s; scheduler_start := start_at_timestep;
                  reconstruction_weight := reconstruction_weight |}
  | Raise e => Raise e
  end.

(** A trajectory: (timestep, sample) pairs in the order they were produced. *)
Abbreviation history := (list (nat * tensor)).

(** Modelled from the spec: [alpha_cumprod(t)] as the sampler reads it,
    among the real numbers. *)
Definition abar (s : schedule) (t : nat) : R := Q2R (alpha_cumprod s t).

(** Modelled from the spec: the forward noising is missing; section 4.2
    gives [sqrt(alpha_cumprod_t) * clean + sqrt(1 - alpha_cumprod_t) * noise],
    failing with [ShapeMismatchError] when the shapes differ. *)
Definition noisify (s : schedule) (clean : tensor) (t : nat) (noise : tensor) : result tensor :=
  if same_shape noise clean
  then Ok (add (scale (sqrt (abar s t)) clean) (scale (sqrt (1 - abar s t)) noise))
  else Raise ShapeMismatchError.

(** Modelled from the spec: the check of section 4.3 that the timestep
    sequence is strictly monotonic. *)
Fixpoint strictly_decreasing (l : list nat) : bool :=
  match l with
  | a :: (b :: _) as l' => (b <? a)%nat && strictly_decreasing l'
  | _ => true
  end.

(** Modelled from the spec: section 4.3 step 1, the leading subsequence,
    truncated to the timesteps not above [start_at_timestep], in descending
    order; [ConfigError] when it is empty or not strictly monotonic. *)
Definition timesteps (s : schedule) (num_inference_steps start_at_timestep : nat)
    : result (list nat) :=
  let ts := reverse (filter (λ t, (t ≤ start_at_timestep)%nat)
                            (leading_timesteps s num_inference_steps)) in
  match ts with
  | [] => Raise ConfigError
  | _ => if strictly_decreasing ts then Ok ts else Raise ConfigError
  end.

(** Modelled from the spec: section 4.3 step 3b,
    [(current_sample - sqrt(1 - alpha_cumprod[t_cur]) * predicted_noise)
     / sqrt(alpha_cumprod[t_cur])]. *)
Definition predict_x0 (s : schedule) (x : tensor) (t_cur : nat) (eps : tensor) : tensor :=
  scale (/ sqrt (abar s t_cur)) (sub x (scale (sqrt (1 - abar s t_cur)) eps)).

(** Modelled from the spec: section 4.3 step 3c,
    [reconstruction_weight * original_sample
     + (1 - reconstruction_weight) * x0_pred]. *)
Definition blend (w : R) (original_sample x0_pred : tensor) : tensor :=
  add (scale w original_sample) (scale (1 - w) x0_pred).

(** Modelled from the spec: section 4.3 step 3d, the closed form
    [eta^2 * (1 - alpha_cumprod_prev) / (1 - alpha_cumprod_cur)
     * (1 - alpha_cumprod_cur / alpha_cumprod_prev)], with the edge case that
    the variance is forced to zero when [t_prev] is 0. *)
Definition variance (s : schedule) (eta : R) (t_cur t_prev : nat) : R :=
  if (t_prev =? 0)%nat then 0
  else eta * eta * ((1 - abar s t_prev) / (1 - abar s t_cur))
       * (1 - abar s t_cur / abar s t_prev).

Section Sampler.

(** The network: [(sample, timestep, conditioning_features)] to predicted
    noise. *)
Variable predict : unet → tensor → nat → tensor → tensor.

(** The noise source: the requested kind (as read from the training
    configuration), the generator state, and the tensor whose shape the
    noise takes. *)
Variable randn_like : json → nat → tensor → tensor.

Variable sch : DDIMScheduler.
Variable model : unet.
Variables original_sample conditioning_features : tensor.
Variable eta : R.
Variable noise_kind : json.

(** Modelled from the spec: section 4.3 steps 3a to 3g for one pair
    [(t_cur, t_prev)]; the network query is recorded with its arguments. *)
Definition reverse_step (pair : nat * nat) (st : tensor * history) : M (tensor * history) :=
  let '(t_cur, t_prev) := pair in
  let '(x, traj) := st in
  let s := noise_schedule sch in
  emit (EvPredict x t_cur conditioning_features);;
  let eps := predict model x t_cur conditioning_features in
  if same_shape eps x && same_shape original_sample x then
    let x0_pred := blend (reconstruction_weight sch) original_sample
                         (predict_x0 s x t_cur eps) in
    let var := variance s eta t_cur t_prev in
    let direction := scale (sqrt (1 - abar s t_prev - var)) eps in
    let mean := add (scale (sqrt (abar s t_prev)) x0_pred) direction in
    x' ← (if Rlt_dec 0 var then
             g ← draw;
             let fresh_noise := randn_like noise_kind g x in
             if same_shape fresh_noise x
             then mret (add mean (scale (sqrt var) fresh_noise))
             else raise ShapeMismatchError
           else mret mean);
    mret (x', traj ++ [(t_prev, x')])
  else raise ShapeMismatchError.

(** Modelled from the spec: section 4.3 steps 1 to 4. *)
Definition sample (start_at_timestep num_inference_steps : nat)
    : M (tensor * tensor * history) :=
  let s := noise_schedule sch in
  ts ← lift (timesteps s num_inference_steps start_at_timestep);
  g ← draw;
  x ← lift (noisify s original_sample start_at_timestep
                    (randn_like noise_kind g original_sample));
  '(x, traj) ← for_each (zip ts (tail ts)) reverse_step (x, []);
  mret (original_sample, x, traj).

(** The samplers the boundary cases of section 8 describe, to compare the
    sampler above with.  [reverse_step_given] and [sample_given] take the
    clean-sample estimate from [estimate] instead of blending;
    [reverse_step_noiseless] and [sample_noiseless] have no variance and
    never ask the noise source during the reverse steps. *)
Definition reverse_step_given (estimate : tensor → nat → tensor → tensor)
    (pair : nat * nat) (st : tensor * history) : M (tensor * history) :=
  let '(t_cur, t_prev) := pair in
  let '(x, traj) := st in
  let s := noise_schedule sch in
  emit (EvPredict x t_cur conditioning_features);;
  let eps := predict model x t_cur conditioning_features in
  if same_shape eps x && same_shape original_sample x then
    let x0_pred := estimate x t_cur eps in
    let var := variance s eta t_cur t_prev in
    let direction := scale (sqrt (1 - abar s t_prev - var)) eps in
    let mean := add (scale (sqrt (abar s t_prev)) x0_pred) direction in
    x' ← (if Rlt_dec 0 var then
             g ← draw;
             let fresh_noise := randn_like noise_kind g x in
             if same_shape fresh_noise x
             then mret (add mean (scale (sqrt var) fresh_noise))
             else raise ShapeMismatchError
           else mret mean);
    mret (x', traj ++ [(t_prev, x')])
  else raise ShapeMismatchError.

Definition sample_given (estimate : tensor → nat → tensor → tensor)
    (start_at_timestep num_inference_steps : nat) : M (tensor * tensor * history) :=
  let s := noise_schedule sch in
  ts ← lift (timesteps s num_inference_steps start_at_timestep);
  g ← draw;
  x ← lift (noisify s original_sample start_at_timestep
                    (randn_like noise_kind g original_sample));
  '(x, traj) ← for_each (zip ts (tail ts)) (reverse_step_given estimate) (x, []);
  mret (original_sample, x, traj).

Definition reverse_step_noiseless (pair : nat * nat) (st : tensor * history)
    : M (tensor * history) :=
  let '(t_cur, t_prev) := pair in
  let '(x, traj) := st in
  let s := noise_schedule sch in
  emit (EvPredict x t_cur conditioning_features);;
  let eps := predict model x t_cur conditioning_features in
  if same_shape eps x && same_shape original_sample x then
    let x0_pred := blend (reconstruction_weight sch) original_sample
                         (predict_x0 s x t_cur eps) in
    let direction := scale (sqrt (1 - abar s t_prev - 0)) eps in
    let x' := add (scale (sqrt (abar s t_prev)) x0_pred) direction in
    mret (x', traj ++ [(t_prev, x')])
  else raise ShapeMismatchError.

Definition sample_noiseless (start_at_timestep num_inference_steps : nat)
    : M (tensor * tensor * history) :=
  let s := noise_schedule sch in
  ts ← lift (timesteps s num_inference_steps start_at_timestep);
  g ← draw;
  x ← lift (noisify s original_sample start_at_timestep
                    (randn_like noise_kind g original_sample));
  '(x, traj) ← for_each (zip ts (tail ts)) reverse_step_noiseless (x, []);
  mret (original_sample, x, traj).

End Sampler.

(** Modelled from the spec: [generate_samples(model, scheduler, imgs, eta,
    num_inference_steps, start_at_timestep, patch_imgs, noise_kind)] of
    [utils/visualize.py] is missing; it runs the sampler of section 4.3 and
    returns originals, reconstructions, diff maps and trajectory.  The
    caller hands over one tensor, which is both the sample to reconstruct
    and the conditioning the network sees; the diff map is the entrywise
    absolute difference of original and reconstruction (section 4.4). *)
Definition generate_samples predict randn_like (model : unet) (sch : DDIMScheduler)
    (imgs : tensor) (eta : R) (num_inference_steps start_at_timestep : nat)
    (patch_imgs : bool) (noise_kind : json)
    : M (tensor * tensor * tensor * history) :=
  '(originals, reconstructions, hist) ←
    sample predict randn_like sch model imgs imgs eta noise_kind
           start_at_timestep num_inference_steps;
  mret (originals, reconstructions, abs (sub originals reconstructions), hist).

End DDIM.

(** ** AnomalyMapper *)

(** [utils/anomalies.py] is not among the sources; what follows is written
    from section 4.4 of the specification.  The blur object the programs
    pass is a [transforms.GaussianBlur]: a separable Gaussian kernel applied
    with reflect padding. *)
Module AnomalyMapper.

Local Open Scope R_scope.

(** Modelled from the spec: the Gaussian-like kernel of section 4.4,
    normalised weights at [ksize] points centred on the window. *)
Definition gaussian_kernel1d (ksize : nat) (sigma : R) : list R :=
  let half := (INR ksize - 1) / 2 in
  let pdf := (λ i : nat, exp (- ((INR i - half) / sigma) ^ 2 / 2)) <$> seq 0 ksize in
  let total := foldr Rplus 0 pdf in
  (λ p, p / total) <$> pdf.

(** Modelled from the spec: the blur keeps the spatial size (section 4.4)
    by reflect padding; index [-k] reads entry [k], index [n-1+k] reads
    entry [n-1-k]. *)
Definition reflect (n : nat) (i : Z) : nat :=
  if (i <? 0)%Z then Z.to_nat (- i)
  else if (Z.of_nat n <=? i)%Z then Z.to_nat (2 * (Z.of_nat n - 1) - i)
  else Z.to_nat i.

(** Modelled from the spec: pixel [(i, j)] of a plane of the diff maps. *)
Definition entry (x : tensor) (h w plane i j : nat) : R :=
  nth (plane * h * w + i * w + j)%nat (data x) 0.

(** Modelled from the spec: the blurred value of a pixel, the kernel
    weighted sum over its window (section 4.4). *)
Definition blurred_entry (k : list R) (x : tensor) (h w plane i j : nat) : R :=
  let r := Z.of_nat (length k / 2) in
  foldr Rplus 0
    (flat_map (λ '(di, kdi),
       (λ '(dj, kdj),
          kdi * kdj * entry x h w plane
                        (reflect h (Z.of_nat i + Z.of_nat di - r))
                        (reflect w (Z.of_nat j + Z.of_nat dj - r)))
       <$> Py.enumerate k)
     (Py.enumerate k)).

(** Modelled from the spec: [blur(x)] as [diff_map_to_anomaly_map] applies
    it; every plane of the last two dimensions is convolved with the
    separable kernel, the shape is the input's, and an input the blur cannot
    take is a [ShapeMismatchError] (section 4.4). *)
Definition apply_blur (b : GaussianBlur) (x : tensor) : result tensor :=
  match reverse (shape x) with
  | w :: h :: lead =>
      let ksize := Z.to_nat (kernel_size b) in
      let k := gaussian_kernel1d ksize (IZR (sigma b)) in
      if (ksize / 2 <? h)%nat && (ksize / 2 <? w)%nat then
        Ok {| shape := shape x;
              data := flat_map (λ plane,
                        flat_map (λ i, blurred_entry k x h w plane i <$> seq 0 w)
                                 (seq 0 h))
                        (seq 0 (Torch.numel lead)) |}
      else Raise ShapeMismatchError
  | _ => Raise ShapeMismatchError
  end.

(** Modelled from the spec: the thresholding of section 4.4; entries above
    the cutoff are saturated, the others keep their magnitude. *)
Definition apply_threshold (cutoff : R) (x : tensor) : tensor :=
  {| shape := shape x;
     data := (λ v, if Rlt_dec cutoff v then 1 else v) <$> data x |}.

(** Modelled from the spec: [diff_map_to_anomaly_map(diff_maps, threshold,
    blur)] of [utils/anomalies.py] is missing; section 4.4 has it blur the
    diff maps and, when a cutoff is given, threshold them.  The call is
    recorded with the arguments it receives. *)
Definition diff_map_to_anomaly_map (diff_maps : tensor) (threshold : option R)
    (blur : GaussianBlur) : M tensor :=
  emit (EvDiffMapToAnomalyMap diff_maps threshold blur);;
  blurred ← lift (apply_blur blur diff_maps);
  mret (match threshold with
        | Some cutoff => apply_threshold cutoff blurred
        | None => blurred
        end).

End AnomalyMapper.

(** ** Helpers shared by both programs *)

(** [l[i]] for reading. *)
Definition getitem {A} (l : list A) (i : nat) : M A :=
  match l !! i with
  | Some x => mret x
  | None => raise IndexError
  end.

(** [d[key]] for reading. *)
Definition dict_getitem {A} (d : gmap string A) (key : string) : M A :=
  match d !! key with
  | Some x => mret x
  | None => raise (KeyError key)
  end.

(** [json.loads(open(path, "r").read())]. *)
Definition json_load (path : string) : M dict :=
  f ← read_file path;
  match f with
  | FJson d => mret d
  | FCheckpoint _ => raise (RuntimeError "JSONDecodeError")
  end.

(** [torch.load(path)]. *)
Definition torch_load (path : string) : M state_dict :=
  f ← read_file path;
  match f with
  | FCheckpoint sd => mret sd
  | FJson _ => raise (RuntimeError "UnpicklingError")
  end.

(** [torch.save(model.state_dict(), path)]. *)
Definition torch_save (model : unet) (path : string) : M unit :=
  write_file path (FCheckpoint (unet_state model)).

(** Modelled from the spec: [utils/files.py] ([save_args]) is not among the
    sources.  Section 6: the configuration is persisted as JSON files that
    inference reads back; [save_args(obj, dir, name)] writes the mapping
    [obj] to [dir/name.json], the path under which inference opens it. *)
Definition save_args (obj : dict) (dir name : string) : M unit :=
  emit (EvSaveArgs dir name obj);;
  write_file (dir +:+ "/" +:+ name +:+ ".json") (FJson obj).

(** [for key in c: c[key] /= n]. *)
Definition Counter_divide_all (c : Counter) (n : nat) : M Counter :=
  if bool_decide (dom c = ∅) then mret c
  else if (n =? 0)%nat then raise ZeroDivisionError
  else mret ((λ v, v / INR n)%R <$> c).

(** [transforms.GaussianBlur(2 * int(4 * 4 + 0.5) + 1, 4)], as both
    programs construct it. *)
Definition diffmap_blur : GaussianBlur :=
  {| kernel_size := 2 * Py.int (4 * 4 + 0.5) + 1; sigma := 4 |}.

Section FeatureFusion.

(** [feature_extractor.extract_endpoints(x).values()], in insertion order. *)
Variable extract_endpoints : tensor → list tensor.
Variable bilinear : tensor → nat → nat → list R.

(** The block both loops run on a batch ([inference_ddim.py] 141-144,
    [main.py] 214-217):
    [image_features = list(...values())[:-2]],
    [for i in range(4): image_features[i] = F.interpolate(image_features[i], size=(32, 32), mode='bilinear')],
    [fea_cat = torch.cat(image_features, dim=1)].
    The local variable [i] is passed in and handed back, as the inner loop
    assigns to it; [resize_feature] is the body of that loop. *)
Definition resize_feature (k : nat) (st : nat * list tensor) : M (nat * list tensor) :=
  let '(_, image_features) := st in
  let i := k in
  x ← getitem image_features i;
  y ← lift (Torch.interpolate bilinear x 32 32);
  mret (i, <[i := y]> image_features).

Definition fuse_features (imgs : tensor) (i : nat) : M (nat * tensor) :=
  emit (EvExtractEndpoints imgs);;
  let image_features := Py.drop_last 2 (extract_endpoints imgs) in
  '(i, image_features) ←
    for_each (Py.range 4) resize_feature (i, image_features);
  fea_cat ← lift (Torch.cat1 image_features);
  mret (i, fea_cat).

End FeatureFusion.

(** ** [src/inference_ddim.py] *)

Module Inference.

Record InferenceArgs := {
  num_inference_steps : nat;
  start_at_timestep : nat;
  reconstruction_weight : R;
  mvtec_item : string;
  mvtec_item_states : list string;
  checkpoint_dir : string;
  checkpoint_name : string;
  log_dir : string;
  train_steps : nat;
  beta_schedule : string;
  eta : R;
  device : string;
  dataset_path : string;
  shuffle : bool;
  img_dir : string;
  plt_imgs : bool;
  patch_imgs : bool;
  run_id : string;
  batch_size : nat
}.

(** The mapping [save_args] is given for the dataclass. *)
Definition args_dict (args : InferenceArgs) : dict :=
  list_to_map
    [("num_inference_steps", JInt (Z.of_nat (num_inference_steps args)));
     ("start_at_timestep", JInt (Z.of_nat (start_at_timestep args)));
     ("reconstruction_weight", JFloat (reconstruction_weight args));
     ("mvtec_item", JStr (mvtec_item args));
     ("mvtec_item_states", JList (JStr <$> mvtec_item_states args));
     ("checkpoint_dir", JStr (checkpoint_dir args));
     ("checkpoint_name", JStr (checkpoint_name args));
     ("log_dir", JStr (log_dir args));
     ("train_steps", JInt (Z.of_nat (train_steps args)));
     ("beta_schedule", JStr (beta_schedule args));
     ("eta", JFloat (eta args));
     ("device", JStr (device args));
     ("dataset_path", JStr (dataset_path args));
     ("shuffle", JBool (shuffle args));
     ("img_dir", JStr (img_dir args));
     ("plt_imgs", JBool (plt_imgs args));
     ("patch_imgs", JBool (patch_imgs args));
     ("run_id", JStr (run_id args));
     ("batch_size", JInt (Z.of_nat (batch_size args)))].

(** A batch of the test loader: images, state labels, ground-truth masks. *)
Abbreviation test_batch := (tensor * list string * tensor)%type.

Section Program.

Variable predict : unet → tensor → nat → tensor → tensor.
Variable randn_like : json → nat → tensor → tensor.
Variable extract_endpoints : tensor → list tensor.
Variable bilinear : tensor → nat → nat → list R.
(** [utils.metrics.scores_batch(gts, anomaly_maps)]. *)
Variable scores_batch : tensor → tensor → Counter.

(** [len(gts)]. *)
Definition len (t : tensor) : nat := hd 0 (shape t).

Definition run_inference_step (diffmap_blur : GaussianBlur) (eval_scores : Counter)
    (gts : tensor) (btc_idx : nat) (imgs : tensor) (model : unet) (noise_kind : json)
    (noise_scheduler_inference : DDIM.DDIMScheduler) (states : list string)
    (eta : R) (num_inference_steps start_at_timestep : nat)
    (patch_imgs plt_imgs : bool) (img_dir : string) : M Counter :=
  '(originals, reconstructions, diffmaps, history) ←
    DDIM.generate_samples predict randn_like model noise_scheduler_inference imgs
      eta num_inference_steps start_at_timestep patch_imgs noise_kind;
  anomaly_maps ← AnomalyMapper.diff_map_to_anomaly_map diffmaps (Some (3 / 10)%R) diffmap_blur;
  let eval_scores := Counter_update eval_scores (scores_batch gts anomaly_maps) in
  for_each (Py.range (len gts)) (λ idx _, ensure_dir img_dir) ();;
  mret eval_scores.

(** The body of the batch loop of [main]; the loop carries the variable [i]
    and the accumulator.  The call of [run_inference_step] is recorded with
    the arguments it is given. *)
Definition main_loop_body (args : InferenceArgs) (diffmap_blur : GaussianBlur)
    (model : unet) (noise_kind : json) (noise_scheduler_inference : DDIM.DDIMScheduler)
    (item : nat * test_batch) (st : nat * Counter) : M (nat * Counter) :=
  let '(i0, (imgs, states, gts)) := item in
  let '(_, eval_scores) := st in
  let i := i0 in
  '(i, fea_cat) ← fuse_features extract_endpoints bilinear imgs i;
  emit (EvRunInferenceStep i fea_cat model noise_kind);;
  eval_scores ←
    run_inference_step diffmap_blur eval_scores gts i fea_cat model noise_kind
      noise_scheduler_inference states (eta args) (num_inference_steps args)
      (start_at_timestep args) (patch_imgs args) (plt_imgs args) (img_dir args);
  mret (i, eval_scores).

Definition hparams (args : InferenceArgs) (sample_size : json) : dict :=
  list_to_map
    [("category", JStr (mvtec_item args));
     ("eta", JFloat (eta args));
     ("recon_weight", JFloat (reconstruction_weight args));
     ("states", JStr (String.concat "," (mvtec_item_states args)));
     ("t", JInt (Z.of_nat (start_at_timestep args)));
     ("num_steps", JInt (Z.of_nat (num_inference_steps args)));
     ("input_size", sample_size);
     ("patching", JBool (patch_imgs args))].

(** [main], lines 98-157: what follows the reading of the two
    configuration files. *)
Definition main_configured (model_config train_arg_config : dict)
    (args : InferenceArgs) (test_loader : list test_batch) : M unit :=
  save_args (args_dict args) (img_dir args) "inference_args";;
  (if patch_imgs args then mret JNull else dict_getitem model_config "sample_size");;
  sd ← torch_load (checkpoint_dir args +:+ "/" +:+ checkpoint_name args);
  let model := {| unet_config := model_config; unet_state := sd |} in
  let diffmap_blur := diffmap_blur in
  noise_scheduler_inference ←
    lift (DDIM.make_scheduler (train_steps args) (start_at_timestep args)
            (beta_schedule args) (reconstruction_weight args));
  let noise_kind := Py.get train_arg_config "noise_kind" (JStr "gaussian") in
  let eval_scores : Counter := ∅ in
  '(_, eval_scores) ←
    for_each (Py.enumerate test_loader)
      (main_loop_body args diffmap_blur model noise_kind noise_scheduler_inference)
      (0, eval_scores);
  eval_scores ← Counter_divide_all eval_scores (length test_loader);
  sample_size ← dict_getitem model_config "sample_size";
  emit (EvAddHparams (hparams args sample_size) eval_scores);;
  emit (EvPrint eval_scores).

(** [main(args, writer)], lines 91-157. *)
Definition main (args : InferenceArgs) (test_loader : list test_batch) : M unit :=
  model_config ← json_load (checkpoint_dir args +:+ "/model_config.json");
  train_arg_config ← json_load (checkpoint_dir args +:+ "/train_arg_config.json");
  main_configured model_config train_arg_config args test_loader.

End Program.

End Inference.

(** ** [src/main.py] *)

Module Training.

Record TrainArgs := {
  checkpoint_dir : string;
  log_dir : string;
  run_name : string;
  mvtec_item : string;
  resolution : nat;
  epochs : nat;
  save_n_epochs : nat;
  dataset_path : string;
  train_steps : nat;
  beta_schedule : string;
  device : string;
  reconstruction_weight : R;
  eta : R;
  batch_size : nat;
  noise_kind : string;
  plt_imgs : bool;
  img_dir : option string;
  calc_val_loss : bool;
  crop : bool
}.

(** The mapping [save_args] is given for the dataclass. *)
Definition args_dict (args : TrainArgs) : dict :=
  list_to_map
    [("checkpoint_dir", JStr (checkpoint_dir args));
     ("log_dir", JStr (log_dir args));
     ("run_name", JStr (run_name args));
     ("mvtec_item", JStr (mvtec_item args));
     ("resolution", JInt (Z.of_nat (resolution args)));
     ("epochs", JInt (Z.of_nat (epochs args)));
     ("save_n_epochs", JInt (Z.of_nat (save_n_epochs args)));
     ("dataset_path", JStr (dataset_path args));
     ("train_steps", JInt (Z.of_nat (train_steps args)));
     ("beta_schedule", JStr (beta_schedule args));
     ("device", JStr (device args));
     ("reconstruction_weight", JFloat (reconstruction_weight args));
     ("eta", JFloat (eta args));
     ("batch_size", JInt (Z.of_nat (batch_size args)));
     ("noise_kind", JStr (noise_kind args));
     ("plt_imgs", JBool (plt_imgs args));
     ("img_dir", from_option JStr JNull (img_dir args));
     ("calc_val_loss", JBool (calc_val_loss args));
     ("crop", JBool (crop args))].

Definition channel_multiplier : gmap nat (list Z) :=
  list_to_map
    [(128, [128; 128; 256; 384; 512]%Z);
     (256, [128; 128; 256; 256; 512; 512]%Z);
     (224, [256; 512; 768; 1024]%Z)].

(** [l[i] = x], a negative [i] counting from the end. *)
Definition setitem {A} (l : list A) (i : Z) (x : A) : M (list A) :=
  let n := Z.of_nat (length l) in
  let j := if (i <? 0)%Z then (i + n)%Z else i in
  if ((0 <=? j) && (j <? n))%Z then mret (<[Z.to_nat j := x]> l)
  else raise IndexError.

(** [model_args], lines 134-152. *)
Definition model_args (args : TrainArgs) : M dict :=
  block_out_channels ←
    match channel_multiplier !! resolution args with
    | Some c => mret c
    | None => raise (KeyError (pretty (resolution args)))
    end;
  let down_blocks := (λ _, "DownBlock2D") <$> block_out_channels in
  down_blocks ← setitem down_blocks (-2) "AttnDownBlock2D";
  let up_blocks := (λ _, "UpBlock2D") <$> block_out_channels in
  up_blocks ← setitem up_blocks 1 "AttnUpBlock2D";
  mret (list_to_map
          [("sample_size", JInt (Z.of_nat (resolution args)));
           ("in_channels", JInt 272);
           ("out_channels", JInt 272);
           ("layers_per_block", JInt 2);
           ("block_out_channels", JList (JInt <$> block_out_channels));
           ("down_block_types", JList (JStr <$> down_blocks));
           ("up_block_types", JList (JStr <$> up_blocks))] : dict).

Abbreviation train_batch := (tensor * list string)%type.
Abbreviation test_batch := (tensor * list string * tensor)%type.

Section Program.

Variable extract_endpoints : tensor → list tensor.
Variable bilinear : tensor → nat → nat → list R.
(** Freshly initialised parameters of a [UNet2DModel] built from the
    keyword arguments [model_args]. *)
Variable init_state : dict → nat → state_dict.
(** [pipe.train.train_step]: the loss and the updated network. *)
Variable train_step : unet → tensor → NoiseSchedule.schedule → nat → string → nat → R * unet.
(** [pipe.validate.validate_step]: the loss. *)
Variable validate_step : unet → tensor → NoiseSchedule.schedule → nat → nat → R.

(** What the shuffling train loader yields in each epoch, and the test
    loader. *)
Variable train_loader : nat → list train_batch.
Variable test_loader : list test_batch.

Definition run_dir (args : TrainArgs) (timestamp : string) : string :=
  checkpoint_dir args +:+ "/" +:+ run_name args +:+ "_" +:+ timestamp.

(** The training half of an epoch, lines 210-222. *)
Definition train_phase (args : TrainArgs) (noise_scheduler : NoiseSchedule.schedule)
    (epoch : nat) (model : unet) : M (unet * R) :=
  for_each (Py.enumerate (train_loader epoch))
    (λ '(btc_num, (batch, _)) '(model, running_loss_train),
       '(_, fea_cat) ← fuse_features extract_endpoints bilinear batch 0;
       g ← draw;
       let '(loss, model) :=
         train_step model fea_cat noise_scheduler (train_steps args) (noise_kind args) g in
       mret (model, (running_loss_train + loss)%R))
    (model, 0%R).

(** The validation half of an epoch up to the averaging, lines 224-244. *)
Definition validation_phase (args : TrainArgs) (noise_scheduler : NoiseSchedule.schedule)
    (epoch : nat) (model : unet) : M (R * Counter) :=
  let scores : Counter := ∅ in
  '(running_loss_test, scores) ←
    for_each (Py.enumerate test_loader)
      (λ '(_btc_num, (_batch, _labels, gts)) '(running_loss_test, scores),
         loss ← (if calc_val_loss args
                 then g ← draw;
                      mret (validate_step model _batch noise_scheduler (train_steps args) g)
                 else mret 0%R);
         let running_loss_test := (running_loss_test + loss)%R in
         emit (EvAddScalars "scores" scores epoch);;
         mret (running_loss_test, scores))
      (0%R, scores);
  scores ← Counter_divide_all scores (length test_loader);
  mret (running_loss_test, scores).

(** One iteration of the epoch loop, lines 202-256; the loop carries the
    network and the last test loss. *)
Definition epoch_body (args : TrainArgs) (timestamp : string)
    (noise_scheduler : NoiseSchedule.schedule)
    (epoch : nat) (st : unet * option R) : M (unet * option R) :=
  let '(model, _) := st in
  '(model, running_loss_train) ← train_phase args noise_scheduler epoch model;
  '(running_loss_test, scores) ← validation_phase args noise_scheduler epoch model;
  (if ((length (train_loader epoch) =? 0) || (length test_loader =? 0))%nat
   then raise ZeroDivisionError
   else emit (EvPostfix (running_loss_train / INR (length (train_loader epoch)))
                        (running_loss_test / INR (length test_loader)) scores));;
  (if (save_n_epochs args =? 0)%nat then raise ZeroDivisionError
   else if ((epoch mod save_n_epochs args =? 0) && (0 <? epoch))%nat
        then torch_save model (run_dir args timestamp +:+ "/epoch_" +:+ pretty epoch +:+ ".pt")
        else mret ());;
  emit (EvAddScalar "Loss/train" running_loss_train epoch);;
  emit (EvAddScalar "Loss/test" running_loss_test epoch);;
  mret (model, Some running_loss_test).

Definition hparams (args : TrainArgs) : dict :=
  list_to_map
    [("category", JStr (mvtec_item args));
     ("res", JInt (Z.of_nat (resolution args)));
     ("eta", JFloat (eta args));
     ("recon_weight", JFloat (reconstruction_weight args))].

(** [main(args)]; [timestamp] is [str(time.time())[:11]]. *)
Definition main (args : TrainArgs) (timestamp : string) : M unit :=
  model_args ← model_args args;
  g ← draw;
  let model := {| unet_config := model_args; unet_state := init_state model_args g |} in
  noise_scheduler ← lift (NoiseSchedule.build (train_steps args) (beta_schedule args));
  inf_noise_scheduler ←
    lift (DDIM.make_scheduler (train_steps args) 150 (beta_schedule args)
            (reconstruction_weight args));
  let diffmap_blur := diffmap_blur in
  save_args (args_dict args) (run_dir args timestamp) "train_arg_config";;
  save_args model_args (run_dir args timestamp) "model_config";;
  '(model, running_loss_test) ←
    for_each (Py.range (epochs args)) (epoch_body args timestamp noise_scheduler)
             (model, None);
  running_loss_test ← match running_loss_test with
                      | Some l => mret l
                      | None => raise (NameError "running_loss_test")
                      end;
  emit (EvAddHparams (hparams args) {["MSE" := running_loss_test]});;
  torch_save model (run_dir args timestamp +:+ "/epoch_" +:+ pretty (epochs args) +:+ ".pt").

End Program.

End Training.

(** ** Reasoning about runs *)

(** The outcome of running [m] from [w] satisfies [Q]. *)
Definition wp {A} (m : M A) (Q : result A → world → Prop) (w : world) : Prop :=
  Q (m w).1 (m w).2.

(** The calls [m] makes when run from [w]. *)
Definition emitted {A} (m : M A) (w : world) : list event :=
  drop (length (trace w)) (trace (m w).2).

(** A postcondition that asks [Q] of a normal outcome and [E] of a raised
    exception. *)
Definition post {A} (Q : A → world → Prop) (E : exn → world → Prop)
    : result A → world → Prop :=
  λ r w, match r with Ok a => Q a w | Raise e => E e w end.

(** Every call [m] makes satisfies [φ], and a normal outcome satisfies [ψ]. *)
Definition emits {A} (φ : event → Prop) (ψ : A → Prop) (m : M A) : Prop :=
  ∀ w, (∃ evs, trace (m w).2 = trace w ++ evs ∧ Forall φ evs)
       ∧ ∀ a, (m w).1 = Ok a → ψ a.

(** A logging call that reads the score mapping reads an empty one. *)
Definition logs_empty_scores (e : event) : Prop :=
  match e with
  | EvAddScalars _ d _ => d = ∅
  | EvPostfix _ _ d => d = ∅
  | _ => True
  end.

(** The shape contracts of the collaborators (section 6): the network's
    prediction and the sampled noise have the shape of the sample. *)
Definition shape_preserving_net (predict : unet → tensor → nat → tensor → tensor) : Prop :=
  ∀ model x t cond, TensorOps.same_shape (predict model x t cond) x = true.

Definition shape_preserving_noise (randn_like : json → nat → tensor → tensor) : Prop :=
  ∀ kind g x, TensorOps.same_shape (randn_like kind g x) x = true.

(** [e] is the network query at timestep [t] with conditioning [cond]. *)
Definition predict_at (cond : tensor) (e : event) (t : nat) : Prop :=
  ∃ x, e = EvPredict x t cond.

(** Running [m] preserves the property [P] of the world, whatever the
    outcome. *)
Definition keeps {A} (P : world → Prop) (m : M A) : Prop :=
  ∀ w, P w → P (m w).2.

(** Every network query carries the conditioning [cond]. *)
Definition conditioned_on (cond : tensor) (e : event) : Prop :=
  match e with
  | EvPredict _ _ c => c = cond
  | _ => True
  end.

(** As [emits], for a run that ends with calls of its own: the calls of a
    normal run are calls satisfying [φ] followed by a final segment
    satisfying [Ψ]; the calls of a run that raises all satisfy [φ]. *)
Definition emits_fin {A} (φ : event → Prop) (Ψ : list event → Prop) (m : M A) : Prop :=
  ∀ w, ∃ evs, trace (m w).2 = trace w ++ evs
              ∧ match (m w).1 with
                | Ok _ => ∃ pre fin, evs = pre ++ fin ∧ Forall φ pre ∧ Ψ fin
                | Raise _ => Forall φ evs
                end.

(** A call that reads the score accumulator. *)
Definition reads_scores (e : event) : Prop :=
  match e with
  | EvAddScalars _ _ _ | EvAddHparams _ _ | EvPostfix _ _ _ | EvPrint _ => True
  | _ => False
  end.

(** The running sum of the batches' metric mappings, divided by their
    number. *)
Definition average (ms : list Counter) : Counter :=
  (λ v, v / INR (length ms))%R <$> foldl Counter_update ∅ ms.

(** A call of [run_inference_step] is made with batch index [k]. *)
Definition btc_idx_is (k : nat) (e : event) : Prop :=
  match e with
  | EvRunInferenceStep idx _ _ _ => idx = k
  | _ => True
  end.

(** A conversion of diff maps is made with the given cutoff and blur. *)
Definition converts_with (threshold : R) (blur : GaussianBlur) (e : event) : Prop :=
  match e with
  | EvDiffMapToAnomalyMap _ th b => th = Some threshold ∧ b = blur
  | _ => True
  end.

Definition is_extract (e : event) : Prop :=
  match e with
  | EvExtractEndpoints _ => True
  | _ => False
  end.

(** [m] is the metric mapping of batch [b] for some anomaly maps. *)
Definition batch_scores (scores_batch : tensor → tensor → Counter)
    (b : Inference.test_batch) (m : Counter) : Prop :=
  ∃ anomaly_maps, m = scores_batch b.2 anomaly_maps.

(** The sum of the values the mappings [ms] hold for metric [k]. *)
Definition metric_sum (k : string) (ms : list Counter) : R :=
  foldr (λ m acc, default 0 (m !! k) + acc)%R 0%R ms.

Definition is_save_args (e : event) : Prop :=
  match e with
  | EvSaveArgs _ _ _ => True
  | _ => False
  end.

#[global] Instance is_save_args_dec e : Decision (is_save_args e).
Proof. destruct e; simpl; apply _. Defined.

(** A call of [run_inference_step] is given a network built from
    [model_config] and the noise kind [noise_kind]. *)
Definition runs_with (model_config : dict) (noise_kind : json) (e : event) : Prop :=
  match e with
  | EvRunInferenceStep _ _ model nk => unet_config model = model_config ∧ nk = noise_kind
  | _ => True
  end.

(** The configuration files of a training run are in place and the run
    has saved arguments exactly as [saves] lists. *)
Definition configs_saved (dir : string) (train_arg_config model_config : dict)
    (before : nat) (saves : list event) (w : world) : Prop :=
  files w !! (dir +:+ "/train_arg_config.json") = Some (FJson train_arg_config)
  ∧ files w !! (dir +:+ "/model_config.json") = Some (FJson model_config)
  ∧ filter is_save_args (drop before (trace w)) = saves
  ∧ before ≤ length (trace w).

(** The feature extractor yields six 4-D endpoint maps of one batch size
    for the images [imgs]. *)
Definition six_endpoints (extract_endpoints : tensor → list tensor) (imgs : tensor)
    : Prop :=
  ∃ n e1 e2 e3 e4 e5 e6 c1 c2 c3 c4 h1 w1 h2 w2 h3 w3 h4 w4,
    extract_endpoints imgs = [e1; e2; e3; e4; e5; e6]
    ∧ shape e1 = [n; c1; h1; w1] ∧ shape e2 = [n; c2; h2; w2]
    ∧ shape e3 = [n; c3; h3; w3] ∧ shape e4 = [n; c4; h4; w4].

(** Running [m] from [w] returns normally. *)
Definition returns {A} (m : M A) (w : world) : Prop :=
  ∃ a w', m w = (Ok a, w').

(** Rounding up to 15 decimal places, and the upper bound on
    [alpha_cumprod] obtained by rounding up after every factor; it is
    cheap to evaluate where the exact product is not. *)
Definition round_up (q : Q) : Q :=
  Qceiling (q * inject_Z (10 ^ 15)) # (10 ^ 15).

Fixpoint alpha_cumprod_upper (s : NoiseSchedule.schedule) (t : nat) : Q :=
  match t with
  | O => round_up (NoiseSchedule.alpha s O)
  | S t' => round_up (alpha_cumprod_upper s t' * NoiseSchedule.alpha s t)
  end.

(** ** Sample inputs *)

Module Sample.

Definition world0 : world := {| files := ∅; dirs := ∅; rng := 0; trace := [] |}.

Definition unit_tensor : tensor := {| shape := [1]; data := [1%R] |}.

(** A network that predicts its input, and two noise sources that agree on
    generator state 0 only. *)
Definition echo_net : unet → tensor → nat → tensor → tensor := λ _ x _ _, x.
Definition echo_noise : json → nat → tensor → tensor := λ _ _ x, x.
Definition other_noise : json → nat → tensor → tensor :=
  λ _ g x, if (g =? 0)%nat then x else TensorOps.scale 2 x.

Definition model0 : unet := {| unet_config := ∅; unet_state := ∅ |}.

Definition linear_1000 : NoiseSchedule.schedule :=
  {| NoiseSchedule.num_train_timesteps := 1000;
     NoiseSchedule.beta := NoiseSchedule.linear_beta 1000 |}.

Definition linear_1 : NoiseSchedule.schedule :=
  {| NoiseSchedule.num_train_timesteps := 1;
     NoiseSchedule.beta := NoiseSchedule.linear_beta 1 |}.

Definition scheduler (reconstruction_weight : R) : DDIM.DDIMScheduler :=
  {| DDIM.noise_schedule := linear_1000;
     DDIM.scheduler_start := 300;
     DDIM.reconstruction_weight := reconstruction_weight |}.

(** The timesteps for 50 inference steps starting at 300 of 1000. *)
Definition timesteps_300_50 : list nat :=
  [300; 280; 260; 240; 220; 200; 180; 160; 140; 120; 100; 80; 60; 40; 20; 0].

(** The endpoint shapes of EfficientNet-b4 on two 224 by 224 images. *)
Definition b4_endpoints : tensor → list tensor := λ _,
  (λ sh, {| shape := sh; data := [] |})
  <$> [[2; 24; 112; 112]; [2; 32; 56; 56]; [2; 56; 28; 28]; [2; 160; 14; 14];
       [2; 448; 7; 7]; [2; 1792; 7; 7]].

Definition no_data : tensor → nat → nat → list R := λ _ _ _, [].

Definition imgs0 : tensor := {| shape := [2; 3; 224; 224]; data := [] |}.
Definition gts0 : tensor := {| shape := [2; 1; 224; 224]; data := [] |}.

(** A checkpoint directory as a training run leaves it. *)
Definition trained_world : world :=
  {| files :=
       {[ "checkpoints/run_0/model_config.json" := FJson {[ "sample_size" := JInt 224 ]};
          "checkpoints/run_0/train_arg_config.json" := FJson ∅;
          "checkpoints/run_0/epoch_1000.pt" := FCheckpoint ∅ ]};
     dirs := ∅; rng := 0; trace := [] |}.

Definition inference_args : Inference.InferenceArgs :=
  {| Inference.num_inference_steps := 50;
     Inference.start_at_timestep := 300;
     Inference.reconstruction_weight := 1;
     Inference.mvtec_item := "bottle";
     Inference.mvtec_item_states := ["all"];
     Inference.checkpoint_dir := "checkpoints/run_0";
     Inference.checkpoint_name := "epoch_1000.pt";
     Inference.log_dir := "logs";
     Inference.train_steps := 1000;
     Inference.beta_schedule := "linear";
     Inference.eta := 0;
     Inference.device := "cuda";
     Inference.dataset_path := "mvtec";
     Inference.shuffle := false;
     Inference.img_dir := "generated_imgs";
     Inference.plt_imgs := false;
     Inference.patch_imgs := false;
     Inference.run_id := "inference";
     Inference.batch_size := 64 |}.

Definition train_args : Training.TrainArgs :=
  {| Training.checkpoint_dir := "checkpoints";
     Training.log_dir := "logs";
     Training.run_name := "run";
     Training.mvtec_item := "bottle";
     Training.resolution := 224;
     Training.epochs := 1000;
     Training.save_n_epochs := 50;
     Training.dataset_path := "mvtec";
     Training.train_steps := 1000;
     Training.beta_schedule := "linear";
     Training.device := "cuda";
     Training.reconstruction_weight := 1;
     Training.eta := 0;
     Training.batch_size := 64;
     Training.noise_kind := "gaussian";
     Training.plt_imgs := false;
     Training.img_dir := None;
     Training.calc_val_loss := false;
     Training.crop := false |}.

End Sample.

(** * Properties *)

(** ** The monad and its loops *)

Lemma wp_mono {A} (m : M A) (Q Q' : result A → world → Prop) w :
  (∀ r w', Q r w' → Q' r w') → wp m Q w → wp m Q' w.
Proof. unfold wp. auto. Qed.

Lemma wp_ret {A} (a : A) Q w : Q (Ok a) w → wp (mret a) Q w.
Proof. done. Qed.

Lemma wp_bind {A B} (m : M A) (f : A → M B) Q w :
  wp m (λ r w', match r with
                | Ok a => wp (f a) Q w'
                | Raise e => Q (Raise e) w'
                end) w →
  wp (m ≫= f) Q w.
Proof.
  unfold wp, mbind, M_bind. destruct (m w) as [[a|e] w']; simpl; auto.
Qed.

Lemma wp_for_each {A S} (I : list A → S → world → Prop) (E : exn → world → Prop)
    (body : A → S → M S) (l : list A) :
  (∀ done x s w, I done s w → wp (body x s) (post (I (done ++ [x])) E) w) →
  ∀ done s w, I done s w → wp (for_each l body s) (post (I (done ++ l)) E) w.
Proof.
  intros Hbody. induction l as [|x l IH]; intros done s w HI.
  - simpl. apply wp_ret. simpl. by rewrite app_nil_r.
  - simpl. apply wp_bind. eapply wp_mono; [|by apply Hbody].
    intros [s'|e] w'; simpl; [|done].
    intros HI'. specialize (IH _ _ _ HI'). by rewrite <- app_assoc in IH.
Qed.

Lemma emitted_app {A} (m : M A) w evs :
  trace (m w).2 = trace w ++ evs → emitted m w = evs.
Proof. intros H. unfold emitted. rewrite H. apply drop_app_length. Qed.

Lemma emits_emitted {A} φ ψ (m : M A) w : emits φ ψ m → Forall φ (emitted m w).
Proof. intros H. destruct (H w) as [(evs & Htr & Hφ) _]. by rewrite (emitted_app _ _ _ Htr). Qed.

Lemma emits_weaken {A} (φ φ' : event → Prop) (ψ ψ' : A → Prop) (m : M A) :
  (∀ e, φ e → φ' e) → (∀ a, ψ a → ψ' a) → emits φ ψ m → emits φ' ψ' m.
Proof.
  intros Hφ Hψ H w. destruct (H w) as [(evs & Htr & Hevs) Hres]. split.
  - exists evs. split; [done|]. eapply Forall_impl; eauto.
  - eauto.
Qed.

Lemma emits_ret {A} φ (ψ : A → Prop) (a : A) : ψ a → emits φ ψ (mret a).
Proof.
  intros Ha w. split.
  - exists []. by rewrite app_nil_r.
  - intros a' [= <-]. done.
Qed.

Lemma emits_raise {A} φ (ψ : A → Prop) e : emits φ ψ (raise e).
Proof. intros w. split; [exists []; by rewrite app_nil_r | done]. Qed.

Lemma emits_lift {A} φ (ψ : A → Prop) (r : result A) :
  (∀ a, r = Ok a → ψ a) → emits φ ψ (lift r).
Proof. intros H w. split; [exists []; by rewrite app_nil_r | by apply H]. Qed.

Lemma emits_emit φ (ψ : unit → Prop) e : φ e → ψ () → emits φ ψ (emit e).
Proof.
  intros He Hu w. split.
  - exists [e]. split; [done | by constructor].
  - by intros [].
Qed.

Lemma emits_draw φ (ψ : nat → Prop) : (∀ g, ψ g) → emits φ ψ draw.
Proof. intros H w. split; [exists []; by rewrite app_nil_r | intros; apply H]. Qed.

Lemma emits_write_file φ (ψ : unit → Prop) path f : ψ () → emits φ ψ (write_file path f).
Proof. intros H w. split; [exists []; by rewrite app_nil_r | by intros []]. Qed.

Lemma emits_ensure_dir φ (ψ : unit → Prop) d : ψ () → emits φ ψ (ensure_dir d).
Proof. intros H w. split; [exists []; by rewrite app_nil_r | by intros []]. Qed.

Lemma emits_read_file φ (ψ : file → Prop) path : (∀ f, ψ f) → emits φ ψ (read_file path).
Proof.
  intros H w. unfold read_file. destruct (files w !! path); simpl.
  - split; [exists []; by rewrite app_nil_r | intros; apply H].
  - split; [exists []; by rewrite app_nil_r | done].
Qed.

Lemma emits_bind {A B} φ (ψ : A → Prop) (ψ' : B → Prop) (m : M A) (f : A → M B) :
  emits φ ψ m → (∀ a, ψ a → emits φ ψ' (f a)) → emits φ ψ' (m ≫= f).
Proof.
  intros Hm Hf w. destruct (Hm w) as [(evs & Htr & Hevs) Hres].
  unfold mbind, M_bind. destruct (m w) as [[a|e] w'] eqn:Hmw; simpl in *.
  - destruct (Hf a (Hres a eq_refl) w') as [(evs' & Htr' & Hevs') Hres']. split.
    + exists (evs ++ evs'). rewrite Htr', Htr, <- app_assoc. split; [done|].
      by apply Forall_app.
    + done.
  - split; [by exists evs | done].
Qed.

Lemma emits_for_each {A S} φ (J : S → Prop) (body : A → S → M S) (l : list A) :
  (∀ x s, J s → emits φ J (body x s)) →
  ∀ s, J s → emits φ J (for_each l body s).
Proof.
  intros Hbody. induction l as [|x l IH]; intros s Hs; simpl.
  - by apply emits_ret.
  - eapply emits_bind; [by apply Hbody | done].
Qed.

Lemma emits_getitem {A} φ (ψ : A → Prop) (l : list A) i :
  (∀ x, l !! i = Some x → ψ x) → emits φ ψ (getitem l i).
Proof.
  intros H. unfold getitem. destruct (l !! i); [apply emits_ret; auto | apply emits_raise].
Qed.

Lemma emits_dict_getitem {A} φ (ψ : A → Prop) (d : gmap string A) key :
  (∀ x, d !! key = Some x → ψ x) → emits φ ψ (dict_getitem d key).
Proof.
  intros H. unfold dict_getitem. destruct (d !! key); [apply emits_ret; auto | apply emits_raise].
Qed.

Lemma emits_json_load φ path : emits φ (λ _, True) (json_load path).
Proof.
  unfold json_load. eapply emits_bind; [by apply emits_read_file with (ψ := λ _, True)|].
  intros [d|sd] _; [by apply emits_ret | apply emits_raise].
Qed.

Lemma emits_torch_load φ path : emits φ (λ _, True) (torch_load path).
Proof.
  unfold torch_load. eapply emits_bind; [by apply emits_read_file with (ψ := λ _, True)|].
  intros [d|sd] _; [apply emits_raise | by apply emits_ret].
Qed.

Lemma emits_torch_save φ model path : emits φ (λ _, True) (torch_save model path).
Proof. by apply emits_write_file. Qed.

Lemma emits_save_args φ obj dir name :
  φ (EvSaveArgs dir name obj) → emits φ (λ _, True) (save_args obj dir name).
Proof.
  intros H. unfold save_args.
  eapply emits_bind; [by apply emits_emit with (ψ := λ _, True)|].
  intros _ _. by apply emits_write_file.
Qed.

Lemma emits_Counter_divide_all φ (ψ : Counter → Prop) c n :
  ψ c → (∀ c', dom c' = dom c → ψ c') → emits φ ψ (Counter_divide_all c n).
Proof.
  intros Hc Hdom. unfold Counter_divide_all. case_bool_decide.
  - by apply emits_ret.
  - destruct (n =? 0); [apply emits_raise|]. apply emits_ret. apply Hdom.
    apply dom_fmap_L.
Qed.

Lemma emits_for_each_prefix {A S} φ (J : list A → S → Prop) (body : A → S → M S)
    (l : list A) :
  (∀ done x s, J done s → emits φ (J (done ++ [x])) (body x s)) →
  ∀ done s, J done s → emits φ (J (done ++ l)) (for_each l body s).
Proof.
  intros Hbody. induction l as [|x l IH]; intros done s Hs; simpl.
  - rewrite app_nil_r. by apply emits_ret.
  - eapply emits_bind; [by apply Hbody|].
    intros s' Hs'. specialize (IH _ _ Hs'). by rewrite <- app_assoc in IH.
Qed.

Lemma keeps_ret {A} P (a : A) : keeps P (mret a).
Proof. by intros w. Qed.

Lemma keeps_raise {A} P e : keeps P (raise e : M A).
Proof. by intros w. Qed.

Lemma keeps_lift {A} P (r : result A) : keeps P (lift r).
Proof. by intros w. Qed.

Lemma keeps_bind {A B} P (m : M A) (f : A → M B) :
  keeps P m → (∀ a, keeps P (f a)) → keeps P (m ≫= f).
Proof.
  intros Hm Hf w Hw. specialize (Hm w Hw). unfold mbind, M_bind.
  destruct (m w) as [[a|e] w']; simpl in *; [by apply Hf | done].
Qed.

Lemma keeps_for_each {A S} P (body : A → S → M S) (l : list A) :
  (∀ x s, keeps P (body x s)) → ∀ s, keeps P (for_each l body s).
Proof.
  intros Hbody. induction l as [|x l IH]; intros s; simpl.
  - apply keeps_ret.
  - apply keeps_bind; [apply Hbody | apply IH].
Qed.

Lemma emits_fin_bind {A B} φ (ψ : A → Prop) Ψ (m : M A) (f : A → M B) :
  emits φ ψ m → (∀ a, ψ a → emits_fin φ Ψ (f a)) → emits_fin φ Ψ (m ≫= f).
Proof.
  intros Hm Hf w. destruct (Hm w) as [(evs & Htr & Hevs) Hres].
  unfold mbind, M_bind. destruct (m w) as [[a|e] w'] eqn:Hmw; simpl in *.
  - destruct (Hf a (Hres a eq_refl) w') as (evs' & Htr' & Hfin).
    exists (evs ++ evs'). split; [by rewrite Htr', Htr, <- app_assoc|].
    destruct ((f a w').1) as [b|e].
    + destruct Hfin as (pre & fin & -> & Hpre & Hfin).
      exists (evs ++ pre), fin. rewrite app_assoc. split; [done|].
      split; [by apply Forall_app | done].
    + by apply Forall_app.
  - by exists evs.
Qed.

(** ** Feature fusion *)

Section FeatureFusionFacts.

Variable extract_endpoints : tensor → list tensor.
Variable bilinear : tensor → nat → nat → list R.

(** After the block, [i] is 3 whatever it was before. *)
Lemma emits_fuse_features φ imgs i0 :
  φ (EvExtractEndpoints imgs) →
  emits φ (λ r, r.1 = 3) (fuse_features extract_endpoints bilinear imgs i0).
Proof.
  intros Hφ. unfold fuse_features.
  eapply emits_bind; [by apply emits_emit with (ψ := λ _, True)|]. intros _ _.
  eapply emits_bind.
  - apply (emits_for_each_prefix φ (λ done st, ∀ k, last done = Some k → st.1 = k))
      with (done := []); [|done].
    intros done x [i feats] _. unfold resize_feature.
    eapply emits_bind; [by apply emits_getitem with (ψ := λ _, True)|]. intros t _.
    eapply emits_bind; [by apply emits_lift with (ψ := λ _, True)|]. intros y _.
    apply emits_ret. simpl. intros k. rewrite last_snoc. by intros [= <-].
  - intros [i feats] Hi. simpl in Hi. specialize (Hi 3 eq_refl). subst i.
    eapply emits_bind; [by apply emits_lift with (ψ := λ _, True)|]. intros fea _.
    by apply emits_ret.
Qed.

End FeatureFusionFacts.

(** ** The validation accumulator of [main.py] *)

Section TrainingFacts.

Variable extract_endpoints : tensor → list tensor.
Variable bilinear : tensor → nat → nat → list R.
Variable init_state : dict → nat → state_dict.
Variable train_step : unet → tensor → NoiseSchedule.schedule → nat → string → nat → R * unet.
Variable validate_step : unet → tensor → NoiseSchedule.schedule → nat → nat → R.
Variable train_loader : nat → list Training.train_batch.
Variable test_loader : list Training.test_batch.

Lemma emits_train_phase φ args ns epoch model :
  (∀ imgs, φ (EvExtractEndpoints imgs)) →
  emits φ (λ _, True)
    (Training.train_phase extract_endpoints bilinear train_step train_loader
       args ns epoch model).
Proof.
  intros Hφ. unfold Training.train_phase.
  apply emits_for_each with (J := λ _, True); [|done].
  intros [btc_num [batch labels]] [m rl] _.
  eapply emits_bind; [by apply emits_fuse_features|]. intros [i fea] _.
  eapply emits_bind; [by apply emits_draw with (ψ := λ _, True)|]. intros g _.
  destruct (train_step _ _ _ _ _ _). by apply emits_ret.
Qed.

Lemma emits_validation_phase args ns epoch model :
  emits logs_empty_scores (λ r, r.2 = ∅)
    (Training.validation_phase validate_step test_loader args ns epoch model).
Proof.
  unfold Training.validation_phase.
  eapply emits_bind.
  - apply emits_for_each with (J := λ st : R * Counter, st.2 = ∅); [|done].
    intros [btc_num [[batch labels] gts]] [rl scores] Hs. simpl in Hs. subst scores.
    eapply emits_bind with (ψ := λ _, True).
    { destruct (Training.calc_val_loss args); [|by apply emits_ret].
      eapply emits_bind; [by apply emits_draw with (ψ := λ _, True)|].
      intros g _. by apply emits_ret. }
    intros loss _.
    eapply emits_bind; [by apply emits_emit with (ψ := λ _, True)|]. intros _ _.
    by apply emits_ret.
  - intros [rl scores] Hs. simpl in Hs. subst scores.
    eapply emits_bind.
    + apply emits_Counter_divide_all with (ψ := λ c, c = ∅); [done|].
      intros c' Hdom. rewrite dom_empty_L in Hdom. by apply dom_empty_inv_L.
    + intros scores ->. by apply emits_ret.
Qed.

Lemma enumerate_length {A} (l : list A) : length (Py.enumerate l) = length l.
Proof.
  unfold Py.enumerate. rewrite length_zip_with, length_seq. lia.
Qed.

Lemma validation_phase_run args ns epoch model w :
  ∃ loss w',
    Training.validation_phase validate_step test_loader args ns epoch model w
      = (Ok (loss, ∅), w')
    ∧ trace w' = trace w
                 ++ replicate (length test_loader) (EvAddScalars "scores" ∅ epoch).
Proof.
  set (ev := EvAddScalars "scores" ∅ epoch).
  cut (wp (Training.validation_phase validate_step test_loader args ns epoch model)
          (λ r w', ∃ loss, r = Ok (loss, ∅)
                   ∧ trace w' = trace w ++ replicate (length test_loader) ev) w).
  { unfold wp. destruct (Training.validation_phase _ _ _ _ _ _ w) as [r w'].
    simpl. intros (loss & -> & Htr). by exists loss, w'. }
  unfold Training.validation_phase. apply wp_bind.
  eapply wp_mono; last first.
  - apply (wp_for_each
             (λ done (st : R * Counter) w',
                st.2 = ∅ ∧ trace w' = trace w ++ replicate (length done) ev)
             (λ _ _, False)) with (done := []).
    + intros done [btc_num [[batch labels] gts]] [rl scores] w1 [Hs Htr].
      simpl in Hs. subst scores.
      apply wp_bind.
      assert (∀ loss, wp (emit ev ;; mret ((rl + loss)%R, (∅ : Counter)))
                (post (λ (st : R * Counter) w',
                         st.2 = ∅ ∧ trace w' = trace w ++ replicate (length (done ++ [(btc_num, (batch, labels, gts))])) ev)
                      (λ _ _, False)) w1) as Hrest.
      { intros loss. apply wp_bind. unfold wp; simpl. split; [done|].
        rewrite Htr, length_app, replicate_add, app_assoc. done. }
      destruct (Training.calc_val_loss args).
      * apply wp_bind. unfold wp at 1; simpl. apply wp_ret.
        specialize (Hrest (validate_step model batch ns (Training.train_steps args) (rng w1))).
        revert Hrest. unfold wp; simpl. by rewrite Htr.
      * apply wp_ret. apply Hrest.
    + split; [done|]. simpl. by rewrite app_nil_r.
  - intros [[rl scores]|e] w'; simpl; [|done].
    intros [Hs Htr]. subst scores. apply wp_bind.
    unfold wp, Counter_divide_all; simpl.
    rewrite dom_empty_L, bool_decide_eq_true_2 by done. simpl.
    exists rl. split; [done|]. by rewrite Htr, enumerate_length.
Qed.

Lemma emits_setitem {A} φ (l : list A) i x : emits φ (λ _, True) (Training.setitem l i x).
Proof.
  unfold Training.setitem. destruct (_ && _); [by apply emits_ret | apply emits_raise].
Qed.

Lemma emits_model_args φ args : emits φ (λ _, True) (Training.model_args args).
Proof.
  unfold Training.model_args.
  eapply emits_bind with (ψ := λ _, True).
  { destruct (Training.channel_multiplier !! _); [by apply emits_ret | apply emits_raise]. }
  intros c _. eapply emits_bind; [apply emits_setitem|]. intros d _.
  eapply emits_bind; [apply emits_setitem|]. intros u _. by apply emits_ret.
Qed.

Lemma emits_epoch_body args timestamp ns epoch st :
  emits logs_empty_scores (λ _, True)
    (Training.epoch_body extract_endpoints bilinear train_step validate_step
       train_loader test_loader args timestamp ns epoch st).
Proof.
  unfold Training.epoch_body. destruct st as [model last].
  eapply emits_bind; [by apply emits_train_phase|]. intros [model' rl] _.
  eapply emits_bind; [apply emits_validation_phase|]. intros [rlt scores] Hs.
  simpl in Hs. subst scores.
  eapply emits_bind with (ψ := λ _, True).
  { destruct (_ || _); [apply emits_raise | by apply emits_emit]. }
  intros _ _.
  eapply emits_bind with (ψ := λ _, True).
  { destruct (_ =? 0); [apply emits_raise|].
    destruct (_ && _); [apply emits_torch_save | by apply emits_ret]. }
  intros _ _.
  eapply emits_bind; [by apply emits_emit with (ψ := λ _, True)|]. intros _ _.
  eapply emits_bind; [by apply emits_emit with (ψ := λ _, True)|]. intros _ _.
  by apply emits_ret.
Qed.

Lemma emits_training_main args timestamp :
  emits logs_empty_scores (λ _, True)
    (Training.main extract_endpoints bilinear init_state train_step validate_step
       train_loader test_loader args timestamp).
Proof.
  unfold Training.main.
  eapply emits_bind; [apply emits_model_args|]. intros margs _.
  eapply emits_bind; [by apply emits_draw with (ψ := λ _, True)|]. intros g _.
  eapply emits_bind; [by apply emits_lift with (ψ := λ _, True)|]. intros ns _.
  eapply emits_bind; [by apply emits_lift with (ψ := λ _, True)|]. intros ins _.
  eapply emits_bind; [by apply emits_save_args|]. intros _ _.
  eapply emits_bind; [by apply emits_save_args|]. intros _ _.
  eapply emits_bind.
  { apply emits_for_each with (J := λ _, True); [|done].
    intros epoch st _. apply emits_epoch_body. }
  intros [model last] _.
  eapply emits_bind with (ψ := λ _, True).
  { destruct last; [by apply emits_ret | apply emits_raise]. }
  intros rl _.
  eapply emits_bind; [by apply emits_emit with (ψ := λ _, True)|]. intros _ _.
  apply emits_torch_save.
Qed.

(** C10: in every training epoch the [scores] Counter created at the start
    of the validation phase is never updated: the validation phase always
    completes, logs the empty mapping once per test batch, and hands the
    empty mapping to the averaging; over a whole training run every logging
    call that reads the score mapping reads the empty one. *)
Theorem validation_scores_always_empty args timestamp :
  (∀ ns epoch model w,
     ∃ loss w',
       Training.validation_phase validate_step test_loader args ns epoch model w
         = (Ok (loss, ∅), w')
       ∧ emitted (Training.validation_phase validate_step test_loader args ns epoch model) w
         = replicate (length test_loader) (EvAddScalars "scores" ∅ epoch))
  ∧ (∀ w,
       Forall logs_empty_scores
         (emitted (Training.main extract_endpoints bilinear init_state train_step
                     validate_step train_loader test_loader args timestamp) w)).
Proof.
  split.
  - intros ns epoch model w.
    destruct (validation_phase_run args ns epoch model w) as (loss & w' & Hrun & Htr).
    exists loss, w'. split; [done|]. apply emitted_app. by rewrite Hrun.
  - intros w. eapply emits_emitted, emits_training_main.
Qed.

End TrainingFacts.

(** ** Tensor arithmetic *)

Section TensorFacts.

Import TensorOps.
Local Open Scope R_scope.

Lemma same_shape_spec x y :
  same_shape x y = true ↔ shape x = shape y ∧ length (data x) = length (data y).
Proof. unfold same_shape. apply bool_decide_eq_true. Qed.

Lemma same_shape_refl x : same_shape x x = true.
Proof. by apply same_shape_spec. Qed.

Lemma same_shape_sym x y : same_shape x y = true → same_shape y x = true.
Proof. rewrite !same_shape_spec. intros [? ?]. by split. Qed.

Lemma same_shape_trans x y z :
  same_shape x y = true → same_shape y z = true → same_shape x z = true.
Proof. rewrite !same_shape_spec. intros [? ?] [? ?]. split; congruence. Qed.

Lemma same_shape_scale a x : same_shape (scale a x) x = true.
Proof. apply same_shape_spec. simpl. by rewrite length_fmap. Qed.

Lemma same_shape_sub x y : same_shape y x = true → same_shape (sub x y) x = true.
Proof.
  rewrite !same_shape_spec. intros [_ Hlen]. simpl.
  rewrite length_zip_with. split; [done | lia].
Qed.

Lemma zip_with_left (f : R → R → R) (l k : list R) :
  length l = length k → (∀ a b, f a b = a) → zip_with f l k = l.
Proof.
  intros Hlen Hf. revert k Hlen. induction l as [|a l IH]; intros [|b k] Hlen; simpl in *;
    try done. rewrite Hf, IH; [done | lia].
Qed.

Lemma zip_with_right (f : R → R → R) (l k : list R) :
  length l = length k → (∀ a b, f a b = b) → zip_with f l k = k.
Proof.
  intros Hlen Hf. revert k Hlen. induction l as [|a l IH]; intros [|b k] Hlen; simpl in *;
    try done. rewrite Hf, IH; [done | lia].
Qed.

(** With weight 1 the blend is the original sample. *)
Lemma blend_one original_sample x0_pred :
  same_shape x0_pred original_sample = true →
  DDIM.blend 1 original_sample x0_pred = original_sample.
Proof.
  rewrite same_shape_spec. intros [Hs Hlen]. destruct original_sample as [sh d].
  unfold DDIM.blend, add, scale. simpl in *. f_equal.
  rewrite zip_with_fmap_l, zip_with_fmap_r. apply zip_with_left; [done|].
  intros a b. lra.
Qed.

(** With weight 0 the blend is the network's estimate. *)
Lemma blend_zero original_sample x0_pred :
  same_shape x0_pred original_sample = true →
  DDIM.blend 0 original_sample x0_pred = x0_pred.
Proof.
  rewrite same_shape_spec. intros [Hs Hlen]. destruct x0_pred as [sh d].
  unfold DDIM.blend, add, scale. simpl in *. f_equal; [done|].
  rewrite zip_with_fmap_l, zip_with_fmap_r. apply zip_with_right; [done|].
  intros a b. lra.
Qed.

Lemma same_shape_predict_x0 s x t eps :
  same_shape eps x = true → same_shape (DDIM.predict_x0 s x t eps) x = true.
Proof.
  intros H. unfold DDIM.predict_x0.
  eapply same_shape_trans; [apply same_shape_scale|].
  apply same_shape_sub. eapply same_shape_trans; [apply same_shape_scale | done].
Qed.

End TensorFacts.

(** ** Runs that agree *)

Lemma bind_ext {A B} (m : M A) (f g : A → M B) w :
  (∀ a w', f a w' = g a w') → (m ≫= f) w = (m ≫= g) w.
Proof. intros H. unfold mbind, M_bind. destruct (m w) as [[a|e] w']; auto. Qed.

Lemma bind_cong {A B} (m m' : M A) (f : A → M B) w :
  m w = m' w → (m ≫= f) w = (m' ≫= f) w.
Proof. intros H. unfold mbind, M_bind. by rewrite H. Qed.

Lemma bind_run_ok {A B} (m : M A) (f : A → M B) w a w' :
  m w = (Ok a, w') → (m ≫= f) w = f a w'.
Proof. intros H. unfold mbind, M_bind. by rewrite H. Qed.

Lemma bind_run_raise {A B} (m : M A) (f : A → M B) w e w' :
  m w = (Raise e, w') → (m ≫= f) w = (Raise e, w').
Proof. intros H. unfold mbind, M_bind. by rewrite H. Qed.

Lemma bind_emit {B} e (f : unit → M B) w :
  (emit e ≫= f) w
  = f () {| files := files w; dirs := dirs w; rng := rng w; trace := trace w ++ [e] |}.
Proof. done. Qed.

Lemma for_each_ext {A S} (body body' : A → S → M S) (l : list A) :
  (∀ x s w, body x s w = body' x s w) →
  ∀ s w, for_each l body s w = for_each l body' s w.
Proof.
  intros H. induction l as [|x l IH]; intros s w; simpl; [done|].
  unfold mbind, M_bind. rewrite H. destruct (body' x s w) as [[s'|e] w']; auto.
Qed.

(** ** The DDIM sampler *)

Section SamplerFacts.

Import TensorOps.
Local Open Scope R_scope.

Variable predict : unet → tensor → nat → tensor → tensor.
Variable randn_like : json → nat → tensor → tensor.

Lemma variance_eta_zero s t_cur t_prev : DDIM.variance s 0 t_cur t_prev = 0.
Proof. unfold DDIM.variance. destruct (t_prev =? 0)%nat; lra. Qed.

Lemma variance_final_step s eta t_cur : DDIM.variance s eta t_cur 0 = 0.
Proof. done. Qed.

Lemma reverse_step_pinned sch model orig cond eta kind pair st w :
  DDIM.reconstruction_weight sch = 1 →
  DDIM.reverse_step predict randn_like sch model orig cond eta kind pair st w
  = DDIM.reverse_step_given predict randn_like sch model orig cond eta kind
      (λ _ _ _, orig) pair st w.
Proof.
  intros Hw. unfold DDIM.reverse_step, DDIM.reverse_step_given.
  destruct pair as [t_cur t_prev], st as [x traj].
  apply bind_ext. intros _ w'.
  destruct (same_shape (predict model x t_cur cond) x && same_shape orig x) eqn:Hsh;
    [|done].
  apply andb_true_iff in Hsh as [He Ho].
  rewrite Hw, blend_one; [done|].
  eapply same_shape_trans; [by apply same_shape_predict_x0 | by apply same_shape_sym].
Qed.

Lemma reverse_step_free sch model orig cond eta kind pair st w :
  DDIM.reconstruction_weight sch = 0 →
  DDIM.reverse_step predict randn_like sch model orig cond eta kind pair st w
  = DDIM.reverse_step_given predict randn_like sch model orig cond eta kind
      (λ x t_cur eps, DDIM.predict_x0 (DDIM.noise_schedule sch) x t_cur eps) pair st w.
Proof.
  intros Hw. unfold DDIM.reverse_step, DDIM.reverse_step_given.
  destruct pair as [t_cur t_prev], st as [x traj].
  apply bind_ext. intros _ w'.
  destruct (same_shape (predict model x t_cur cond) x && same_shape orig x) eqn:Hsh;
    [|done].
  apply andb_true_iff in Hsh as [He Ho].
  rewrite Hw, blend_zero; [done|].
  eapply same_shape_trans; [by apply same_shape_predict_x0 | by apply same_shape_sym].
Qed.

Lemma reverse_step_eta_zero sch model orig cond kind pair st w :
  DDIM.reverse_step predict randn_like sch model orig cond 0 kind pair st w
  = DDIM.reverse_step_noiseless predict sch model orig cond pair st w.
Proof.
  unfold DDIM.reverse_step, DDIM.reverse_step_noiseless.
  destruct pair as [t_cur t_prev], st as [x traj].
  apply bind_ext. intros _ w'.
  destruct (same_shape (predict model x t_cur cond) x && same_shape orig x); [|done].
  rewrite variance_eta_zero.
  destruct (Rlt_dec 0 0) as [Hlt|_]; [lra | done].
Qed.

Lemma sample_pinned sch model orig cond eta kind start n w :
  DDIM.reconstruction_weight sch = 1 →
  DDIM.sample predict randn_like sch model orig cond eta kind start n w
  = DDIM.sample_given predict randn_like sch model orig cond eta kind
      (λ _ _ _, orig) start n w.
Proof.
  intros Hw. unfold DDIM.sample, DDIM.sample_given.
  apply bind_ext. intros ts w1. apply bind_ext. intros g w2.
  apply bind_ext. intros x w3.
  apply bind_cong, for_each_ext. intros p s w4. by apply reverse_step_pinned.
Qed.

Lemma sample_free sch model orig cond eta kind start n w :
  DDIM.reconstruction_weight sch = 0 →
  DDIM.sample predict randn_like sch model orig cond eta kind start n w
  = DDIM.sample_given predict randn_like sch model orig cond eta kind
      (λ x t_cur eps, DDIM.predict_x0 (DDIM.noise_schedule sch) x t_cur eps) start n w.
Proof.
  intros Hw. unfold DDIM.sample, DDIM.sample_given.
  apply bind_ext. intros ts w1. apply bind_ext. intros g w2.
  apply bind_ext. intros x w3.
  apply bind_cong, for_each_ext. intros p s w4. by apply reverse_step_free.
Qed.

Lemma sample_eta_zero sch model orig cond kind start n w :
  DDIM.sample predict randn_like sch model orig cond 0 kind start n w
  = DDIM.sample_noiseless predict randn_like sch model orig cond kind start n w.
Proof.
  unfold DDIM.sample, DDIM.sample_noiseless.
  apply bind_ext. intros ts w1. apply bind_ext. intros g w2.
  apply bind_ext. intros x w3.
  apply bind_cong, for_each_ext. intros p s w4. by apply reverse_step_eta_zero.
Qed.

Ltac shape_tac :=
  unfold DDIM.blend, DDIM.predict_x0, add, sub, scale in *;
  rewrite ?same_shape_spec in *; simpl in *;
  repeat first [rewrite length_zip_with | rewrite length_fmap];
  intuition (try congruence; try lia).

Lemma reverse_step_run sch model orig cond eta kind t_cur t_prev x traj w :
  shape_preserving_net predict → shape_preserving_noise randn_like →
  same_shape x orig = true →
  ∃ x' w',
    DDIM.reverse_step predict randn_like sch model orig cond eta kind
      (t_cur, t_prev) (x, traj) w = (Ok (x', traj ++ [(t_prev, x')]), w')
    ∧ same_shape x' orig = true
    ∧ trace w' = trace w ++ [EvPredict x t_cur cond]
    ∧ files w' = files w
    ∧ (rng w' = rng w ∨ rng w' = S (rng w)).
Proof.
  intros Hnet Hnoise Hx. unfold DDIM.reverse_step.
  unfold mbind at 1, M_bind; simpl.
  pose proof (Hnet model x t_cur cond) as He. rewrite He.
  rewrite (same_shape_sym _ _ Hx). simpl.
  destruct (Rlt_dec 0 _) as [Hlt|Hge].
  - unfold mbind, M_bind; simpl.
    pose proof (Hnoise kind (rng w) x) as Hz. rewrite Hz. simpl.
    eexists _, _. split; [done|]. repeat split; simpl; auto. clear Hlt. shape_tac.
  - unfold mbind, M_bind; simpl.
    eexists _, _. split; [done|]. repeat split; simpl; auto. clear Hge. shape_tac.
Qed.

Lemma reverse_loop_run sch model orig cond eta kind pairs :
  shape_preserving_net predict → shape_preserving_noise randn_like →
  ∀ x traj w, same_shape x orig = true →
  ∃ x' traj' w' evs,
    for_each pairs (DDIM.reverse_step predict randn_like sch model orig cond eta kind)
      (x, traj) w = (Ok (x', traj'), w')
    ∧ same_shape x' orig = true
    ∧ traj'.*1 = traj.*1 ++ pairs.*2
    ∧ trace w' = trace w ++ evs
    ∧ Forall2 (predict_at cond) evs pairs.*1
    ∧ files w' = files w
    ∧ (rng w ≤ rng w' ≤ rng w + length pairs)%nat.
Proof.
  intros Hnet Hnoise. induction pairs as [|[t_cur t_prev] pairs IH]; intros x traj w Hx.
  - exists x, traj, w, []. simpl. rewrite !app_nil_r. repeat split; auto; lia.
  - destruct (reverse_step_run sch model orig cond eta kind t_cur t_prev x traj w
                Hnet Hnoise Hx) as (x1 & w1 & Hrun & Hx1 & Htr1 & Hf1 & Hr1).
    destruct (IH x1 (traj ++ [(t_prev, x1)]) w1 Hx1)
      as (x' & traj' & w' & evs & Hrun' & Hx' & Htraj & Htr' & Hevs & Hf' & Hr').
    exists x', traj', w', (EvPredict x t_cur cond :: evs).
    split. { cbn [for_each]. unfold mbind, M_bind. by rewrite Hrun. }
    split; [done|]. split.
    { rewrite Htraj, fmap_app. simpl. by rewrite <- app_assoc. }
    split. { by rewrite Htr', Htr1, <- app_assoc. }
    split. { simpl. constructor; [by exists x | done]. }
    split; [congruence|]. simpl. lia.
Qed.

Lemma sample_run sch model orig cond eta kind start n ts w :
  shape_preserving_net predict → shape_preserving_noise randn_like →
  DDIM.timesteps (DDIM.noise_schedule sch) n start = Ok ts →
  ∃ out traj w' evs,
    DDIM.sample predict randn_like sch model orig cond eta kind start n w
      = (Ok (orig, out, traj), w')
    ∧ same_shape out orig = true
    ∧ traj.*1 = (zip ts (tail ts)).*2
    ∧ trace w' = trace w ++ evs
    ∧ Forall2 (predict_at cond) evs (zip ts (tail ts)).*1
    ∧ files w' = files w
    ∧ (S (rng w) ≤ rng w' ≤ S (rng w) + length (zip ts (tail ts)))%nat.
Proof.
  intros Hnet Hnoise Hts. unfold DDIM.sample. rewrite Hts.
  unfold mbind at 1 2 3, M_bind; simpl.
  unfold DDIM.noisify. rewrite (Hnoise kind (rng w) orig). simpl.
  set (x0 := add _ _). set (w1 := World _ _ _ _).
  assert (same_shape x0 orig = true) as Hx0.
  { subst x0. pose proof (Hnoise kind (rng w) orig). shape_tac. }
  destruct (reverse_loop_run sch model orig cond eta kind (zip ts (tail ts))
              Hnet Hnoise x0 [] w1 Hx0)
    as (x' & traj' & w' & evs & Hrun & Hx' & Htraj & Htr' & Hevs & Hf' & Hr').
  exists x', traj', w', evs. unfold mbind, M_bind. rewrite Hrun.
  repeat split; auto; simpl in *; lia.
Qed.

Lemma emits_reverse_step φ sch model orig cond eta kind pair st :
  (∀ x t, φ (EvPredict x t cond)) →
  emits φ (λ _, True)
    (DDIM.reverse_step predict randn_like sch model orig cond eta kind pair st).
Proof.
  intros Hφ. unfold DDIM.reverse_step. destruct pair as [t_cur t_prev], st as [x traj].
  eapply emits_bind; [by apply emits_emit with (ψ := λ _, True)|]. intros _ _.
  destruct (_ && _); [|apply emits_raise].
  eapply emits_bind with (ψ := λ _, True); [|intros; by apply emits_ret].
  destruct (Rlt_dec _ _); [|by apply emits_ret].
  eapply emits_bind; [by apply emits_draw with (ψ := λ _, True)|]. intros g _.
  destruct (same_shape _ _); [by apply emits_ret | apply emits_raise].
Qed.

Lemma emits_sample φ sch model orig cond eta kind start n :
  (∀ x t, φ (EvPredict x t cond)) →
  emits φ (λ _, True)
    (DDIM.sample predict randn_like sch model orig cond eta kind start n).
Proof.
  intros Hφ. unfold DDIM.sample.
  eapply emits_bind; [by apply emits_lift with (ψ := λ _, True)|]. intros ts _.
  eapply emits_bind; [by apply emits_draw with (ψ := λ _, True)|]. intros g _.
  eapply emits_bind; [by apply emits_lift with (ψ := λ _, True)|]. intros x _.
  eapply emits_bind with (ψ := λ _, True).
  - apply emits_for_each with (J := λ _, True); [|done].
    intros p s _. by apply emits_reverse_step.
  - intros [x' traj] _. by apply emits_ret.
Qed.

Lemma emits_generate_samples φ model sch imgs eta n start patch kind :
  (∀ x t, φ (EvPredict x t imgs)) →
  emits φ (λ _, True)
    (DDIM.generate_samples predict randn_like model sch imgs eta n start patch kind).
Proof.
  intros Hφ. unfold DDIM.generate_samples.
  eapply emits_bind; [by apply emits_sample|]. intros [[o r] h] _. by apply emits_ret.
Qed.

Lemma keeps_rng_reverse_step_noiseless g sch model orig cond pair st :
  keeps (λ w, rng w = g) (DDIM.reverse_step_noiseless predict sch model orig cond pair st).
Proof.
  unfold DDIM.reverse_step_noiseless. destruct pair as [t_cur t_prev], st as [x traj].
  apply keeps_bind; [by intros w|]. intros _.
  destruct (_ && _); [apply keeps_ret | apply keeps_raise].
Qed.

(** The noiseless sampler draws once, for the initial noising, and never
    again. *)
Lemma sample_noiseless_draws sch model orig cond kind start n w :
  (rng (DDIM.sample_noiseless predict randn_like sch model orig cond kind start n w).2
   ≤ S (rng w))%nat
  ∧ ∀ out w',
      DDIM.sample_noiseless predict randn_like sch model orig cond kind start n w
        = (Ok out, w') → rng w' = S (rng w).
Proof.
  cut (wp (DDIM.sample_noiseless predict randn_like sch model orig cond kind start n)
          (λ r w', (rng w' ≤ S (rng w))%nat ∧ ∀ out, r = Ok out → rng w' = S (rng w)) w).
  { unfold wp. destruct (DDIM.sample_noiseless _ _ _ _ _ _ _ _ _ w) as [r w2]. simpl.
    intros [H1 H2]. split; [done|]. intros out w' [= -> ->]. eauto. }
  unfold DDIM.sample_noiseless. apply wp_bind.
  destruct (DDIM.timesteps _ _ _) as [ts|e]; [|unfold wp; simpl; split; [lia | done]].
  unfold wp at 1; simpl. apply wp_bind. unfold wp at 1; simpl. apply wp_bind.
  destruct (DDIM.noisify _ _ _ _) as [x|e]; [|unfold wp; simpl; split; [lia | done]].
  unfold wp at 1; simpl. apply wp_bind. set (w1 := World _ _ _ _).
  pose proof (keeps_for_each (λ w', rng w' = S (rng w)) _ (zip ts (tail ts))
                (keeps_rng_reverse_step_noiseless (S (rng w)) sch model orig cond)
                (x, []) w1 eq_refl) as Hk.
  unfold wp. destruct (for_each _ _ _ w1) as [[[x' traj]|e] w2]; simpl in *.
  - split; [lia | done].
  - split; [lia | done].
Qed.

Lemma for_each_snoc {A S} (body : A → S → M S) (l : list A) (x : A) (s : S) w :
  for_each (l ++ [x]) body s w = (for_each l body s ≫= body x) w.
Proof.
  revert s w. induction l as [|y l IH]; intros s w; simpl.
  - unfold mbind, M_bind, mret, M_ret. by destruct (body x s w) as [[s'|e] w'].
  - unfold mbind, M_bind. destruct (body y s w) as [[s'|e] w']; [|done].
    by rewrite IH.
Qed.

Lemma timesteps_last s n start ts :
  DDIM.timesteps s n start = Ok ts → last ts = Some 0%nat.
Proof.
  unfold DDIM.timesteps, NoiseSchedule.leading_timesteps.
  destruct n as [|n]; [done|].
  rewrite <- cons_seq. rewrite fmap_cons, filter_cons_True by (simpl; lia).
  rewrite reverse_cons. simpl.
  set (l := reverse _ ++ [0%nat]).
  intros H. assert (ts = l) as ->.
  { destruct l; [done|]. by destruct (DDIM.strictly_decreasing _); simplify_eq. }
  subst l. apply last_snoc.
Qed.

Lemma zip_tail_snoc (ts : list nat) (z : nat) :
  (2 ≤ length ts)%nat → last ts = Some z →
  ∃ pairs t_cur, zip ts (tail ts) = pairs ++ [(t_cur, z)].
Proof.
  induction ts as [|a [|b ts] IH]; simpl; intros Hlen Hlast; try lia.
  destruct ts as [|c ts].
  - simpl in Hlast. simplify_eq. by exists [], a.
  - destruct IH as (pairs & t_cur & Heq); [simpl; lia | done |].
    exists ((a, b) :: pairs), t_cur. simpl in *. by rewrite Heq.
Qed.

(** The last reverse step of the sampler whose estimate is pinned to the
    original: the output is the original at the terminal noise level along
    the network's last prediction. *)
Lemma pinned_last_step sch model orig cond eta kind pairs t_cur st w out traj w' :
  for_each (pairs ++ [(t_cur, 0%nat)])
    (DDIM.reverse_step_given predict randn_like sch model orig cond eta kind (λ _ _ _, orig))
    st w = (Ok (out, traj), w') →
  ∃ x_prev,
    out = add (scale (sqrt (DDIM.abar (DDIM.noise_schedule sch) 0)) orig)
              (scale (sqrt (1 - DDIM.abar (DDIM.noise_schedule sch) 0 - 0))
                     (predict model x_prev t_cur cond))
    ∧ same_shape (predict model x_prev t_cur cond) orig = true.
Proof.
  rewrite for_each_snoc. unfold mbind at 1, M_bind.
  destruct (for_each pairs _ st w) as [[[x_prev traj_prev]|e] w1]; [|done].
  unfold DDIM.reverse_step_given. unfold mbind at 1, M_bind; simpl.
  destruct (same_shape (predict model x_prev t_cur cond) x_prev
            && same_shape orig x_prev) eqn:Hsh; [|done].
  apply andb_true_iff in Hsh as [He Ho].
  rewrite !variance_final_step.
  destruct (Rlt_dec 0 0) as [Hlt|_]; [lra|].
  unfold mbind, M_bind; simpl. intros [= <- _ _]. exists x_prev. split; [done|].
  eapply same_shape_trans; [done | by apply same_shape_sym].
Qed.

Lemma abar_linear_0 T s :
  NoiseSchedule.build T "linear" = Ok s → DDIM.abar s 0 = 9999 / 10000.
Proof.
  unfold NoiseSchedule.build. destruct (T =? 0)%nat; [done|]. simpl.
  intros [= <-]. unfold DDIM.abar. simpl.
  unfold NoiseSchedule.alpha, NoiseSchedule.linear_beta. simpl.
  rewrite (Qeq_eqR _ (9999 # 10000)); [unfold Q2R; simpl; lra|].
  destruct (T <=? 1)%nat; [reflexivity|].
  unfold NoiseSchedule.beta_start, NoiseSchedule.beta_end, Qdiv. simpl. ring.
Qed.

Lemma sqrt_9999 : 9999 / 10000 <= sqrt (9999 / 10000) <= 1.
Proof.
  split.
  - rewrite <- (sqrt_square (9999 / 10000)) at 1 by lra.
    apply sqrt_le_1_alt. lra.
  - rewrite <- sqrt_1. apply sqrt_le_1_alt. lra.
Qed.

Lemma sqrt_0001 : sqrt (1 - 9999 / 10000 - 0) = 1 / 100.
Proof.
  replace (1 - 9999 / 10000 - 0) with ((1 / 100) * (1 / 100)) by lra.
  apply sqrt_square. lra.
Qed.

(** Entry by entry, the anchored output is within the terminal noise level
    of the original. *)
Lemma anchored_close orig eps i o_i :
  same_shape eps orig = true →
  data (add (scale (sqrt (9999 / 10000)) orig)
            (scale (sqrt (1 - 9999 / 10000 - 0)) eps)) !! i = Some o_i →
  ∃ a_i e_i,
    data orig !! i = Some a_i ∧ data eps !! i = Some e_i
    ∧ Rabs (o_i - a_i) <= Rabs a_i / 10000 + Rabs e_i / 100.
Proof.
  intros _. simpl. rewrite lookup_zip_with_Some.
  intros (x & y & -> & Hx & Hy).
  rewrite list_lookup_fmap in Hx, Hy.
  destruct (data orig !! i) as [a_i|] eqn:Ha; [|done].
  destruct (data eps !! i) as [e_i|] eqn:He; [|done].
  simpl in *. simplify_eq. exists a_i, e_i. split; [done|]. split; [done|].
  rewrite sqrt_0001. pose proof sqrt_9999 as [Hlo Hhi].
  set (a := sqrt (9999 / 10000)) in *.
  replace (a * a_i + 1 / 100 * e_i - a_i) with ((a - 1) * a_i + 1 / 100 * e_i) by lra.
  eapply Rle_trans; [apply Rabs_triang|].
  rewrite !Rabs_mult. rewrite (Rabs_left1 (a - 1)) by lra.
  rewrite (Rabs_right (1 / 100)) by lra.
  pose proof (Rabs_pos a_i). pose proof (Rabs_pos e_i). nra.
Qed.

End SamplerFacts.


(** C3: with [eta = 0] the variance term is zero at every step and the
    sampler is the noiseless one: it asks the noise source once, for the
    initial noising, and never during the reverse steps; so two runs whose
    noise sources agree on that first draw return the same outcome. *)
Theorem eta_zero_is_deterministic
    (predict : unet → tensor → nat → tensor → tensor)
    (randn_like randn_like' : json → nat → tensor → tensor)
    (sch : DDIM.DDIMScheduler) (model : unet) (orig cond : tensor)
    (kind : json) (start n : nat) (w : world) :
  (∀ t_cur t_prev, DDIM.variance (DDIM.noise_schedule sch) 0 t_cur t_prev = 0%R)
  ∧ DDIM.sample predict randn_like sch model orig cond 0 kind start n w
    = DDIM.sample_noiseless predict randn_like sch model orig cond kind start n w
  ∧ rng (DDIM.sample predict randn_like sch model orig cond 0 kind start n w).2
    ≤ S (rng w)
  ∧ (∀ out w',
       DDIM.sample predict randn_like sch model orig cond 0 kind start n w = (Ok out, w') →
       rng w' = S (rng w))
  ∧ (randn_like kind (rng w) orig = randn_like' kind (rng w) orig →
     DDIM.sample predict randn_like sch model orig cond 0 kind start n w
     = DDIM.sample predict randn_like' sch model orig cond 0 kind start n w).
Proof.
  split; [intros; apply variance_eta_zero|].
  split; [apply sample_eta_zero|].
  rewrite sample_eta_zero.
  split; [apply sample_noiseless_draws|].
  split; [apply sample_noiseless_draws|].
  intros Hfirst. rewrite sample_eta_zero.
  unfold DDIM.sample_noiseless.
  destruct (DDIM.timesteps _ _ _) as [ts|e]; [|done].
  unfold mbind at 1 2 3 5 6 7, M_bind. simpl. by rewrite Hfirst.
Qed.

(** ** The inference loop *)

Lemma Counter_divide_all_result c n c' w w' :
  Counter_divide_all c n w = (Ok c', w') → c' = (λ v, v / INR n)%R <$> c.
Proof.
  unfold Counter_divide_all. case_bool_decide as Hdom.
  - intros [= <- _]. apply dom_empty_inv_L in Hdom. subst c. by rewrite fmap_empty.
  - destruct (n =? 0); [done|]. by intros [= <- _].
Qed.

Lemma emits_Counter_divide_all_eq φ c n :
  emits φ (λ c', c' = (λ v, v / INR n)%R <$> c) (Counter_divide_all c n).
Proof.
  intros w. split.
  - exists []. rewrite app_nil_r. unfold Counter_divide_all.
    case_bool_decide; [done|]. by destruct (n =? 0).
  - intros c' Hc'. destruct (Counter_divide_all c n w) as [r w'] eqn:Hrun.
    simpl in Hc'. subst r. by eapply Counter_divide_all_result.
Qed.

Lemma emits_diff_map_to_anomaly_map φ d th b :
  φ (EvDiffMapToAnomalyMap d th b) →
  emits φ (λ _, True) (AnomalyMapper.diff_map_to_anomaly_map d th b).
Proof.
  intros Hφ. unfold AnomalyMapper.diff_map_to_anomaly_map.
  eapply emits_bind; [by apply emits_emit with (ψ := λ _, True)|]. intros _ _.
  eapply emits_bind; [by apply emits_lift with (ψ := λ _, True)|].
  intros blurred _. by apply emits_ret.
Qed.

Section InferenceFacts.

Variable predict : unet → tensor → nat → tensor → tensor.
Variable randn_like : json → nat → tensor → tensor.
Variable extract_endpoints : tensor → list tensor.
Variable bilinear : tensor → nat → nat → list R.
Variable scores_batch : tensor → tensor → Counter.

Lemma emits_run_inference_step φ blur c gts idx imgs model nk sch states eta n start
    patch plt dir :
  (∀ x t, φ (EvPredict x t imgs)) →
  (∀ d, φ (EvDiffMapToAnomalyMap d (Some (3 / 10)%R) blur)) →
  emits φ (λ c', ∃ am, c' = Counter_update c (scores_batch gts am))
    (Inference.run_inference_step predict randn_like scores_batch blur c gts idx imgs
       model nk sch states eta n start patch plt dir).
Proof.
  intros Hpred Hdiff. unfold Inference.run_inference_step.
  eapply emits_bind; [by apply emits_generate_samples|]. intros [[[o r] d] h] _.
  eapply emits_bind; [by apply emits_diff_map_to_anomaly_map|]. intros am _.
  eapply emits_bind with (ψ := λ _, True).
  { apply emits_for_each with (J := λ _, True); [|done].
    intros idx' u _. by apply emits_ensure_dir. }
  intros _ _. apply emits_ret. by exists am.
Qed.

Lemma emits_main_loop_body φ args blur model nk sch item st :
  (∀ x, φ (EvExtractEndpoints x)) →
  (∀ imgs, φ (EvRunInferenceStep 3 imgs model nk)) →
  (∀ x t c, φ (EvPredict x t c)) →
  (∀ d, φ (EvDiffMapToAnomalyMap d (Some (3 / 10)%R) blur)) →
  emits φ (λ r, r.1 = 3 ∧ ∃ m, batch_scores scores_batch item.2 m
                              ∧ r.2 = Counter_update st.2 m)
    (Inference.main_loop_body predict randn_like extract_endpoints bilinear scores_batch
       args blur model nk sch item st).
Proof.
  intros Hext Hrun Hpred Hdiff. unfold Inference.main_loop_body.
  destruct item as [i0 [[imgs states] gts]], st as [i c].
  eapply emits_bind; [by apply emits_fuse_features|]. intros [i' fea] Hi.
  simpl in Hi. subst i'.
  eapply emits_bind; [by apply emits_emit with (ψ := λ _, True)|]. intros _ _.
  eapply emits_bind; [by apply emits_run_inference_step|]. intros c' (am & ->).
  apply emits_ret. simpl. split; [done|].
  exists (scores_batch gts am). split; [by exists am | done].
Qed.

Lemma emits_main_loop φ args blur model nk sch loader :
  (∀ x, φ (EvExtractEndpoints x)) →
  (∀ imgs, φ (EvRunInferenceStep 3 imgs model nk)) →
  (∀ x t c, φ (EvPredict x t c)) →
  (∀ d, φ (EvDiffMapToAnomalyMap d (Some (3 / 10)%R) blur)) →
  emits φ (λ r, ∃ ms, Forall2 (batch_scores scores_batch) loader ms
                      ∧ r.2 = foldl Counter_update ∅ ms)
    (for_each (Py.enumerate loader)
       (Inference.main_loop_body predict randn_like extract_endpoints bilinear
          scores_batch args blur model nk sch)
       (0, ∅)).
Proof.
  intros Hext Hrun Hpred Hdiff.
  eapply emits_weaken with (φ := φ); [done| |].
  2: { apply (emits_for_each_prefix φ
                (λ done (st : nat * Counter),
                   ∃ ms, Forall2 (batch_scores scores_batch) done.*2 ms
                         ∧ st.2 = foldl Counter_update ∅ ms)) with (done := []).
       - intros done item st (ms & Hms & Hst).
         eapply emits_weaken; [done| |by apply emits_main_loop_body].
         intros [i c] [_ (m & Hm & Hc)]. simpl in *.
         exists (ms ++ [m]). rewrite fmap_app. split.
         + apply Forall2_app; [done|]. by constructor.
         + by rewrite foldl_app, <- Hst.
       - exists []. by split. }
  intros [i c] (ms & Hms & Hc). exists ms. split; [|done].
  simpl in Hms. unfold Py.enumerate in Hms.
  rewrite snd_zip in Hms; [done|]. rewrite length_seq. lia.
Qed.

Lemma emits_fin_report φ args mc (c : Counter) :
  emits_fin φ (λ fin, ∃ h, fin = [EvAddHparams h c; EvPrint c])
    (sample_size ← dict_getitem mc "sample_size";
     emit (EvAddHparams (Inference.hparams args sample_size) c);;
     emit (EvPrint c)).
Proof.
  intros w. unfold dict_getitem. destruct (mc !! "sample_size") as [ss|]; simpl.
  - exists [EvAddHparams (Inference.hparams args ss) c; EvPrint c].
    split; [by rewrite <- app_assoc|].
    exists [], [EvAddHparams (Inference.hparams args ss) c; EvPrint c].
    split; [done|]. split; [done|]. by eexists.
  - exists []. by rewrite app_nil_r.
Qed.

Lemma emits_fin_main_configured φ mc tc args loader :
  (∀ d n o, φ (EvSaveArgs d n o)) →
  (∀ x, φ (EvExtractEndpoints x)) →
  (∀ imgs sd, φ (EvRunInferenceStep 3 imgs {| unet_config := mc; unet_state := sd |}
                   (Py.get tc "noise_kind" (JStr "gaussian")))) →
  (∀ x t c, φ (EvPredict x t c)) →
  (∀ d, φ (EvDiffMapToAnomalyMap d (Some (3 / 10)%R) diffmap_blur)) →
  emits_fin φ
    (λ fin, ∃ ms h, Forall2 (batch_scores scores_batch) loader ms
                    ∧ fin = [EvAddHparams h (average ms); EvPrint (average ms)])
    (Inference.main_configured predict randn_like extract_endpoints bilinear scores_batch
       mc tc args loader).
Proof.
  intros Hsave Hext Hrun Hpred Hdiff. unfold Inference.main_configured.
  eapply emits_fin_bind; [by apply emits_save_args|]. intros _ _.
  eapply emits_fin_bind with (ψ := λ _, True).
  { destruct (Inference.patch_imgs args); [by apply emits_ret|].
    by apply emits_dict_getitem. }
  intros _ _.
  eapply emits_fin_bind; [apply emits_torch_load|]. intros sd _.
  eapply emits_fin_bind; [by apply emits_lift with (ψ := λ _, True)|]. intros sch _.
  eapply emits_fin_bind; [by apply emits_main_loop|].
  intros [i c] (ms & Hms & Hc). simpl in Hc. subst c.
  eapply emits_fin_bind; [apply emits_Counter_divide_all_eq|].
  intros c' ->. rewrite (Forall2_length _ _ _ Hms). fold (average ms).
  intros w. destruct (emits_fin_report φ args mc (average ms) w) as (evs & Htr & Hfin).
  exists evs. split; [done|].
  destruct (_.1); [|done].
  destruct Hfin as (pre & fin & -> & Hpre & h & ->).
  exists pre, [EvAddHparams h (average ms); EvPrint (average ms)].
  split; [done|]. split; [done|]. by exists ms, h.
Qed.

Lemma emits_fin_main φ args loader :
  (∀ d n o, φ (EvSaveArgs d n o)) →
  (∀ x, φ (EvExtractEndpoints x)) →
  (∀ imgs model nk, φ (EvRunInferenceStep 3 imgs model nk)) →
  (∀ x t c, φ (EvPredict x t c)) →
  (∀ d, φ (EvDiffMapToAnomalyMap d (Some (3 / 10)%R) diffmap_blur)) →
  emits_fin φ
    (λ fin, ∃ ms h, Forall2 (batch_scores scores_batch) loader ms
                    ∧ fin = [EvAddHparams h (average ms); EvPrint (average ms)])
    (Inference.main predict randn_like extract_endpoints bilinear scores_batch
       args loader).
Proof.
  intros Hsave Hext Hrun Hpred Hdiff. unfold Inference.main.
  eapply emits_fin_bind; [apply emits_json_load|]. intros mc _.
  eapply emits_fin_bind; [apply emits_json_load|]. intros tc _.
  by apply emits_fin_main_configured.
Qed.

(** What [emits_fin] says about the calls made from a given world. *)
Lemma emits_fin_emitted {A} φ Ψ (m : M A) w :
  emits_fin φ Ψ m →
  match (m w).1 with
  | Ok _ => ∃ pre fin, emitted m w = pre ++ fin ∧ Forall φ pre ∧ Ψ fin
  | Raise _ => Forall φ (emitted m w)
  end.
Proof.
  intros H. destruct (H w) as (evs & Htr & Hfin).
  by rewrite (emitted_app _ _ _ Htr).
Qed.

Lemma keeps_trace_fuse_loop tr feats i :
  keeps (λ w, trace w = tr)
    (for_each (Py.range 4) (resize_feature bilinear) (i, feats)).
Proof.
  apply keeps_for_each. intros k [i' fs]. unfold resize_feature.
  apply keeps_bind.
  { unfold getitem. destruct (fs !! k); [apply keeps_ret | apply keeps_raise]. }
  intros x. apply keeps_bind; [apply keeps_lift|]. intros y. apply keeps_ret.
Qed.

(** The block asks the feature extractor once and makes no other call. *)
Lemma fuse_features_trace imgs i0 w :
  trace (fuse_features extract_endpoints bilinear imgs i0 w).2
  = trace w ++ [EvExtractEndpoints imgs].
Proof.
  unfold fuse_features. unfold mbind at 1, M_bind, emit. cbv beta iota.
  set (w1 := World _ _ _ _).
  change (trace w ++ [EvExtractEndpoints imgs]) with (trace w1).
  generalize w1. clear w1. intros w1.
  apply (keeps_bind (λ w', trace w' = trace w1)); [by apply keeps_trace_fuse_loop| |done].
  intros [i feats]. apply keeps_bind; [apply keeps_lift|]. intros fea. apply keeps_ret.
Qed.

(** The calls one batch gives rise to: the feature extraction, once and
    first; then, if the features were built, the call of
    [run_inference_step] with batch index 3 and those features, and network
    queries that all carry those features. *)
Lemma main_loop_body_trace args blur model nk sch i0 imgs states gts st w :
  ∃ rest,
    emitted (Inference.main_loop_body predict randn_like extract_endpoints bilinear
               scores_batch args blur model nk sch (i0, (imgs, states, gts)) st) w
    = EvExtractEndpoints imgs :: rest
    ∧ Forall (λ e, ¬ is_extract e) rest
    ∧ match (fuse_features extract_endpoints bilinear imgs i0 w).1 with
      | Ok (i, fea) =>
          i = 3
          ∧ (∃ rest', rest = EvRunInferenceStep 3 fea model nk :: rest')
          ∧ Forall (conditioned_on fea) rest
      | Raise _ => rest = []
      end.
Proof.
  pose proof (fuse_features_trace imgs i0 w) as Htr1.
  pose proof (emits_fuse_features extract_endpoints bilinear (λ _, True) imgs i0 I w)
    as [_ Hi].
  unfold Inference.main_loop_body. destruct st as [i c]. unfold emitted.
  destruct (fuse_features extract_endpoints bilinear imgs i0 w) as [[[i' fea]|e] w1]
    eqn:Hfuse; simpl in Htr1, Hi |- *.
  - specialize (Hi _ eq_refl). simpl in Hi. subst i'.
    rewrite (bind_run_ok _ _ _ _ _ Hfuse). cbv beta iota. rewrite bind_emit.
    set (w2 := World _ _ _ _).
    set (φ := λ e, ¬ is_extract e ∧ conditioned_on fea e).
    assert (emits φ (λ _, True)
              (eval_scores ← Inference.run_inference_step predict randn_like scores_batch
                               blur c gts 3 fea model nk sch states (Inference.eta args)
                               (Inference.num_inference_steps args)
                               (Inference.start_at_timestep args)
                               (Inference.patch_imgs args) (Inference.plt_imgs args)
                               (Inference.img_dir args);
               mret (3, eval_scores))) as Hrest.
    { eapply emits_bind.
      - apply emits_run_inference_step; intros; (split; [by intros [] | done]).
      - intros c' _. by apply emits_ret. }
    destruct (Hrest w2) as [(evs & Htr2 & Hevs) _]. rewrite Htr2. subst w2. simpl.
    rewrite Htr1, <- !app_assoc, drop_app_length. simpl.
    exists (EvRunInferenceStep 3 fea model nk :: evs).
    split; [done|]. split.
    { constructor; [by intros []|]. eapply Forall_impl; [done|]. by intros e' []. }
    split; [done|]. split; [by eexists|].
    constructor; [done|]. eapply Forall_impl; [done|]. by intros e' [].
  - rewrite (bind_run_raise _ _ _ _ _ Hfuse). simpl.
    rewrite Htr1, drop_app_length. exists []. by repeat split.
Qed.

(** C9: every call of [run_inference_step] the inference loop makes is
    given batch index 3, whatever the position of the batch in the loader:
    the inner loop over [range(4)] leaves 3 in [i].  Whenever the features
    of a batch are built, the call is made, with index 3, right after the
    feature extraction. *)
Theorem batch_index_is_always_3 args loader :
  (∀ w,
     Forall (btc_idx_is 3)
       (emitted (Inference.main predict randn_like extract_endpoints bilinear
                   scores_batch args loader) w))
  ∧ (∀ blur model nk sch i0 imgs states gts st w i fea w1,
       fuse_features extract_endpoints bilinear imgs i0 w = (Ok (i, fea), w1) →
       ∃ rest,
         emitted (Inference.main_loop_body predict randn_like extract_endpoints bilinear
                    scores_batch args blur model nk sch (i0, (imgs, states, gts)) st) w
         = EvExtractEndpoints imgs :: EvRunInferenceStep 3 fea model nk :: rest).
Proof.
  split.
  - intros w.
    pose proof (emits_fin_emitted (btc_idx_is 3) _ _ w
                  (emits_fin_main (btc_idx_is 3) args loader
                     ltac:(done) ltac:(done) ltac:(done) ltac:(done) ltac:(done))) as H.
    destruct (_.1); [|done].
    destruct H as (pre & fin & -> & Hpre & ms & h & _ & ->).
    apply Forall_app. split; [done|]. by repeat constructor.
  - intros blur model nk sch i0 imgs states gts st w i fea w1 Hfuse.
    destruct (main_loop_body_trace args blur model nk sch i0 imgs states gts st w)
      as (rest & Hem & _ & Hrest).
    rewrite Hfuse in Hrest. simpl in Hrest. destruct Hrest as (_ & (rest' & ->) & _).
    by exists rest'.
Qed.

End InferenceFacts.

(** ** AnomalyMapper *)

Lemma numel_app l k : Torch.numel (l ++ k) = Torch.numel l * Torch.numel k.
Proof. unfold Torch.numel. induction l as [|a l IH]; simpl; [lia|]. rewrite IH. lia. Qed.

Lemma numel_reverse l : Torch.numel (reverse l) = Torch.numel l.
Proof.
  induction l as [|a l IH]; [done|].
  rewrite reverse_cons, numel_app, IH. unfold Torch.numel. simpl. lia.
Qed.

Lemma length_flat_map_const {A B} (f : A → list B) (l : list A) n :
  (∀ x, length (f x) = n) → length (flat_map f l) = length l * n.
Proof.
  intros Hf. induction l as [|a l IH]; simpl; [done|].
  by rewrite length_app, Hf, IH.
Qed.

Lemma apply_blur_shape b x y :
  AnomalyMapper.apply_blur b x = Ok y →
  shape y = shape x ∧ length (data y) = Torch.numel (shape x).
Proof.
  unfold AnomalyMapper.apply_blur.
  destruct (reverse (shape x)) as [|w [|h lead]] eqn:Hrev; try done.
  destruct (_ && _); [|done]. intros [= <-]. simpl. split; [done|].
  rewrite (length_flat_map_const _ _ (h * w)).
  - rewrite length_seq. rewrite <- (reverse_involutive (shape x)), Hrev.
    rewrite numel_reverse. unfold Torch.numel. simpl. lia.
  - intros plane. rewrite (length_flat_map_const _ _ w); [by rewrite length_seq|].
    intros i. by rewrite length_fmap, length_seq.
Qed.

Lemma apply_blur_ok b x lead h w :
  shape x = lead ++ [h; w] →
  Z.to_nat (kernel_size b) / 2 < h → Z.to_nat (kernel_size b) / 2 < w →
  ∃ y, AnomalyMapper.apply_blur b x = Ok y.
Proof.
  intros Hsh Hh Hw. unfold AnomalyMapper.apply_blur.
  rewrite Hsh, reverse_app. cbn [reverse rev_append app].
  apply Nat.ltb_lt in Hh, Hw. rewrite Hh, Hw. by eexists.
Qed.

Lemma diff_map_to_anomaly_map_shape d th b w am w' :
  AnomalyMapper.diff_map_to_anomaly_map d th b w = (Ok am, w') →
  shape am = shape d ∧ length (data am) = Torch.numel (shape d).
Proof.
  unfold AnomalyMapper.diff_map_to_anomaly_map. rewrite bind_emit.
  destruct (AnomalyMapper.apply_blur b d) as [y|e] eqn:Hblur; [|done].
  apply apply_blur_shape in Hblur as [Hs Hl].
  unfold mbind, M_bind, lift. simpl. intros [= <- _].
  destruct th; simpl; [|done]. by rewrite length_fmap.
Qed.



(** ** The score accumulator *)

Lemma Counter_update_lookup (c m : Counter) k :
  Counter_update c m !! k
  = match m !! k with
    | Some count => Some (count + default 0 (c !! k))%R
    | None => c !! k
    end.
Proof.
  unfold Counter_update. rewrite lookup_merge.
  destruct (c !! k), (m !! k); done.
Qed.

Lemma running_sum_lookup (ms : list Counter) (c : Counter) k :
  Forall (λ m, is_Some (m !! k)) ms → ms ≠ [] →
  foldl Counter_update c ms !! k = Some (default 0 (c !! k) + metric_sum k ms)%R.
Proof.
  revert c. induction ms as [|m ms IH]; intros c Hall Hne; [done|].
  apply Forall_cons in Hall as [[x Hx] Hall]. simpl.
  destruct ms as [|m' ms].
  - simpl. rewrite Counter_update_lookup, Hx. simpl. f_equal. lra.
  - rewrite IH; [|done|done]. rewrite Counter_update_lookup, Hx. simpl. f_equal. lra.
Qed.

Lemma average_lookup (ms : list Counter) k :
  Forall (λ m, is_Some (m !! k)) ms → ms ≠ [] →
  average ms !! k = Some (metric_sum k ms / INR (length ms))%R.
Proof.
  intros Hall Hne. unfold average.
  rewrite lookup_fmap, running_sum_lookup by done.
  rewrite lookup_empty. simpl. f_equal. lra.
Qed.

(** ** Conditioning features *)

Lemma resize_feature_run bilinear k i feats e n c h w0 w :
  feats !! k = Some e → shape e = [n; c; h; w0] →
  resize_feature bilinear k (i, feats) w
  = (Ok (k, <[k := {| shape := [n; c; 32; 32]; data := bilinear e 32 32 |}]> feats), w).
Proof.
  intros Hk He. unfold resize_feature, getitem, Torch.interpolate.
  rewrite Hk. unfold mbind, M_bind, mret, M_ret, lift. by rewrite He.
Qed.

Lemma fuse_features_run extract_endpoints bilinear imgs i0 w
    e1 e2 e3 e4 e5 e6 n c1 c2 c3 c4 h1 w1 h2 w2 h3 w3 h4 w4 :
  extract_endpoints imgs = [e1; e2; e3; e4; e5; e6] →
  shape e1 = [n; c1; h1; w1] → shape e2 = [n; c2; h2; w2] →
  shape e3 = [n; c3; h3; w3] → shape e4 = [n; c4; h4; w4] →
  ∃ fea,
    Torch.cat1 [{| shape := [n; c1; 32; 32]; data := bilinear e1 32 32 |};
                {| shape := [n; c2; 32; 32]; data := bilinear e2 32 32 |};
                {| shape := [n; c3; 32; 32]; data := bilinear e3 32 32 |};
                {| shape := [n; c4; 32; 32]; data := bilinear e4 32 32 |}] = Ok fea
    ∧ shape fea = [n; c1 + (c2 + (c3 + (c4 + 0))); 32; 32]
    ∧ fuse_features extract_endpoints bilinear imgs i0 w
      = (Ok (3, fea),
         {| files := files w; dirs := dirs w; rng := rng w;
            trace := trace w ++ [EvExtractEndpoints imgs] |}).
Proof.
  intros Hee He1 He2 He3 He4.
  set (r1 := {| shape := [n; c1; 32; 32]; data := bilinear e1 32 32 |}).
  set (r2 := {| shape := [n; c2; 32; 32]; data := bilinear e2 32 32 |}).
  set (r3 := {| shape := [n; c3; 32; 32]; data := bilinear e3 32 32 |}).
  set (r4 := {| shape := [n; c4; 32; 32]; data := bilinear e4 32 32 |}).
  assert (∃ fea, Torch.cat1 [r1; r2; r3; r4] = Ok fea
                 ∧ shape fea = [n; c1 + (c2 + (c3 + (c4 + 0))); 32; 32])
    as (fea & Hcat & Hshape).
  { unfold Torch.cat1, Torch.same_outer. simpl.
    rewrite !bool_decide_eq_true_2 by done. simpl. by eexists. }
  exists fea. split; [done|]. split; [done|].
  unfold fuse_features. rewrite bind_emit, Hee.
  unfold Py.drop_last, Py.range. cbn [length Nat.sub take seq for_each].
  erewrite bind_run_ok; last first.
  { erewrite bind_run_ok; [|eapply resize_feature_run; [reflexivity | eassumption]].
    erewrite bind_run_ok; [|eapply resize_feature_run; [reflexivity | eassumption]].
    erewrite bind_run_ok; [|eapply resize_feature_run; [reflexivity | eassumption]].
    erewrite bind_run_ok; [|eapply resize_feature_run; [reflexivity | eassumption]].
    reflexivity. }
  cbn [list_insert insert]. fold r1 r2 r3 r4.
  unfold mbind, M_bind, lift. rewrite Hcat. reflexivity.
Qed.

Lemma model_args_in_channels args w d w' :
  Training.model_args args w = (Ok d, w') →
  d !! "in_channels" = Some (JInt 272) ∧ d !! "out_channels" = Some (JInt 272).
Proof.
  unfold Training.model_args.
  destruct (Training.channel_multiplier !! _) as [c|]; [|done].
  unfold mbind at 1, M_bind. simpl.
  unfold mbind at 1, M_bind.
  destruct (Training.setitem _ _ _ w) as [[db|e] w1]; [|done].
  unfold mbind at 1, M_bind.
  destruct (Training.setitem _ _ _ w1) as [[ub|e] w2]; [|done].
  intros [= <- _]. done.
Qed.


(** ** The properties at sample inputs *)

Lemma echo_net_keeps_shape : shape_preserving_net Sample.echo_net.
Proof. intros model x t cond. apply same_shape_refl. Qed.

Lemma echo_noise_keeps_shape : shape_preserving_noise Sample.echo_noise.
Proof. intros kind g x. apply same_shape_refl. Qed.

Lemma timesteps_300_50_eq :
  DDIM.timesteps Sample.linear_1000 50 300 = Ok Sample.timesteps_300_50.
Proof. vm_compute. reflexivity. Qed.


Lemma eta_zero_is_deterministic_witness :
  DDIM.sample Sample.echo_net Sample.echo_noise (Sample.scheduler 1) Sample.model0
    Sample.unit_tensor Sample.unit_tensor 0 (JStr "gaussian") 300 50 Sample.world0
  = DDIM.sample Sample.echo_net Sample.other_noise (Sample.scheduler 1) Sample.model0
      Sample.unit_tensor Sample.unit_tensor 0 (JStr "gaussian") 300 50 Sample.world0.
Proof.
  apply (eta_zero_is_deterministic Sample.echo_net Sample.echo_noise Sample.other_noise
           (Sample.scheduler 1) Sample.model0 Sample.unit_tensor Sample.unit_tensor
           (JStr "gaussian") 300 50 Sample.world0).
  reflexivity.
Defined.





Lemma batch_index_is_always_3_witness :
  ∃ fea rest,
    emitted (Inference.main_loop_body Sample.echo_net Sample.echo_noise
               Sample.b4_endpoints Sample.no_data (λ _ _, ∅) Sample.inference_args
               diffmap_blur Sample.model0 (JStr "gaussian") (Sample.scheduler 1)
               (5, (Sample.imgs0, ["good"], Sample.gts0)) (4, ∅))
            Sample.world0
    = EvExtractEndpoints Sample.imgs0
      :: EvRunInferenceStep 3 fea Sample.model0 (JStr "gaussian") :: rest.
Proof.
  destruct (batch_index_is_always_3 Sample.echo_net Sample.echo_noise
              Sample.b4_endpoints Sample.no_data (λ _ _, ∅) Sample.inference_args [])
    as [_ Hcall].
  eexists. eapply Hcall. vm_compute. reflexivity.
Defined.

(** ** The noise schedule *)

Section ScheduleFacts.

Import NoiseSchedule.
Local Open Scope Q_scope.

Lemma linear_beta_range T t :
  (t < T)%nat → beta_start <= linear_beta T t ∧ linear_beta T t <= beta_end.
Proof.
  intros Ht. unfold linear_beta, beta_start, beta_end.
  destruct (T <=? 1)%nat eqn:HT; [split; lra|].
  apply Nat.leb_gt in HT.
  set (d := inject_Z (Z.of_nat (T - 1))).
  set (x := inject_Z (Z.of_nat t)).
  assert (0 < d) as Hd.
  { subst d. change 0 with (inject_Z 0). rewrite <- Zlt_Qlt. lia. }
  assert (0 <= x) as Hx0.
  { subst x. change 0 with (inject_Z 0). rewrite <- Zle_Qle. lia. }
  assert (x <= d) as Hxd.
  { subst x d. rewrite <- Zle_Qle. lia. }
  split.
  - assert (0 <= x * ((2 # 100) - (1 # 10000)) / d); [|lra].
    apply Qle_shift_div_l; [done|]. nra.
  - assert (x * ((2 # 100) - (1 # 10000)) / d <= (2 # 100) - (1 # 10000)); [|lra].
    apply Qle_shift_div_r; [done|]. nra.
Qed.

Lemma linear_alpha_range T s t :
  build T "linear" = Ok s → (t < T)%nat → 0 < alpha s t ∧ alpha s t < 1.
Proof.
  unfold build. destruct (T =? 0)%nat; [done|]. simpl. intros [= <-] Ht.
  unfold alpha. simpl. destruct (linear_beta_range T t Ht) as [Hlo Hhi].
  unfold beta_start, beta_end in *. split; lra.
Qed.

(** Whatever the schedule, alphas strictly between 0 and 1 up to [t] make
    the cumulative product positive, at most 1 and strictly decreasing. *)
Lemma alpha_cumprod_range s t :
  (∀ u, (u ≤ t)%nat → 0 < alpha s u ∧ alpha s u < 1) →
  0 < alpha_cumprod s t ∧ alpha_cumprod s t < 1.
Proof.
  induction t as [|t IH]; intros Ha.
  - simpl. apply Ha. lia.
  - simpl. destruct IH as [Hlo Hhi]; [intros u Hu; apply Ha; lia|].
    destruct (Ha (S t)) as [Halo Hahi]; [lia|]. split; nra.
Qed.

Lemma alpha_cumprod_decreasing s t :
  (∀ u, (u ≤ S t)%nat → 0 < alpha s u ∧ alpha s u < 1) →
  alpha_cumprod s (S t) < alpha_cumprod s t.
Proof.
  intros Ha. destruct (alpha_cumprod_range s t) as [Hlo Hhi].
  { intros u Hu. apply Ha. lia. }
  destruct (Ha (S t)) as [Halo Hahi]; [lia|]. simpl. nra.
Qed.

Lemma round_up_le q : q <= round_up q.
Proof.
  unfold round_up. rewrite Qmake_Qdiv.
  apply Qle_shift_div_l; [done|]. apply Qle_ceiling.
Qed.

Lemma alpha_cumprod_upper_bound s t :
  (∀ u, (u ≤ t)%nat → 0 < alpha s u ∧ alpha s u < 1) →
  alpha_cumprod s t <= alpha_cumprod_upper s t.
Proof.
  induction t as [|t IH]; intros Ha; simpl.
  - apply round_up_le.
  - eapply Qle_trans; [|apply round_up_le].
    destruct (Ha (S t)) as [Halo Hahi]; [lia|].
    specialize (IH (λ u Hu, Ha u (Nat.le_le_succ_r _ _ Hu))).
    nra.
Qed.

Lemma alpha_cumprod_upper_999 :
  alpha_cumprod_upper Sample.linear_1000 999 < 1 # 10000.
Proof. vm_compute. reflexivity. Qed.

End ScheduleFacts.




(** ** Persisted configuration *)

Lemma append_inj_r (a b c : string) : a +:+ b = a +:+ c → b = c.
Proof. induction a as [|x a IH]; simpl; [done|]. intros [= H]. by apply IH. Qed.

Section ConfigFacts.

Variable extract_endpoints : tensor → list tensor.
Variable bilinear : tensor → nat → nat → list R.
Variable init_state : dict → nat → state_dict.
Variable train_step : unet → tensor → NoiseSchedule.schedule → nat → string → nat → R * unet.
Variable validate_step : unet → tensor → NoiseSchedule.schedule → nat → nat → R.
Variable train_loader : nat → list Training.train_batch.
Variable test_loader : list Training.test_batch.

Variables (dir : string) (tc mc : dict) (before : nat) (saves : list event).

Local Abbreviation P := (configs_saved dir tc mc before saves).

Lemma keeps_configs_emit e : ¬ is_save_args e → keeps P (emit e).
Proof.
  intros He w (H1 & H2 & H3 & H4). unfold P, configs_saved. simpl.
  repeat split; [done..| |rewrite length_app; lia].
  rewrite drop_app_le by done. rewrite filter_app, H3.
  rewrite filter_cons_False, filter_nil by done. by rewrite app_nil_r.
Qed.

Lemma keeps_configs_draw : keeps P draw.
Proof. by intros w H. Qed.

Lemma keeps_configs_checkpoint model tail :
  keeps P (torch_save model (dir +:+ "/epoch_" +:+ tail)).
Proof.
  intros w (H1 & H2 & H3 & H4). unfold P, configs_saved. simpl.
  repeat split; [| |done..].
  - rewrite lookup_insert_ne; [done|]. intros H. apply append_inj_r in H. done.
  - rewrite lookup_insert_ne; [done|]. intros H. apply append_inj_r in H. done.
Qed.

Lemma keeps_configs_fuse_features imgs i :
  keeps P (fuse_features extract_endpoints bilinear imgs i).
Proof.
  unfold fuse_features.
  apply keeps_bind; [apply keeps_configs_emit; by intros []|]. intros _.
  apply keeps_bind.
  { apply keeps_for_each. intros k [i' fs]. unfold resize_feature.
    apply keeps_bind.
    { unfold getitem. destruct (fs !! k); [apply keeps_ret | apply keeps_raise]. }
    intros x. apply keeps_bind; [apply keeps_lift|]. intros y. apply keeps_ret. }
  intros [i' feats]. apply keeps_bind; [apply keeps_lift|]. intros fea. apply keeps_ret.
Qed.

Lemma keeps_configs_epoch_body args timestamp ns epoch st :
  dir = Training.run_dir args timestamp →
  keeps P (Training.epoch_body extract_endpoints bilinear train_step validate_step
             train_loader test_loader args timestamp ns epoch st).
Proof.
  intros Hdir. unfold Training.epoch_body. destruct st as [model last].
  apply keeps_bind.
  { unfold Training.train_phase. apply keeps_for_each.
    intros [btc_num [batch labels]] [m rl].
    apply keeps_bind; [apply keeps_configs_fuse_features|]. intros [i fea].
    apply keeps_bind; [apply keeps_configs_draw|]. intros g.
    destruct (train_step _ _ _ _ _ _). apply keeps_ret. }
  intros [model' rl]. apply keeps_bind.
  { unfold Training.validation_phase. apply keeps_bind.
    - apply keeps_for_each. intros [btc_num [[batch labels] gts]] [rlt scores].
      apply keeps_bind.
      { destruct (Training.calc_val_loss args); [|apply keeps_ret].
        apply keeps_bind; [apply keeps_configs_draw|]. intros g. apply keeps_ret. }
      intros loss. apply keeps_bind; [apply keeps_configs_emit; by intros []|].
      intros _. apply keeps_ret.
    - intros [rlt scores]. apply keeps_bind; [|intros; apply keeps_ret].
      unfold Counter_divide_all. case_bool_decide; [apply keeps_ret|].
      destruct (_ =? 0); [apply keeps_raise | apply keeps_ret]. }
  intros [rlt scores]. apply keeps_bind.
  { destruct (_ || _); [apply keeps_raise | apply keeps_configs_emit; by intros []]. }
  intros _. apply keeps_bind.
  { destruct (_ =? 0); [apply keeps_raise|].
    destruct (_ && _); [|apply keeps_ret].
    rewrite <- Hdir. apply keeps_configs_checkpoint. }
  intros _. apply keeps_bind; [apply keeps_configs_emit; by intros []|]. intros _.
  apply keeps_bind; [apply keeps_configs_emit; by intros []|]. intros _. apply keeps_ret.
Qed.

End ConfigFacts.

Lemma bind_draw {B} (f : nat → M B) w :
  (draw ≫= f) w
  = f (rng w) {| files := files w; dirs := dirs w; rng := S (rng w); trace := trace w |}.
Proof. done. Qed.

Lemma bind_save_args {B} obj dir name (f : unit → M B) w :
  (save_args obj dir name ≫= f) w
  = f () {| files := <[dir +:+ "/" +:+ name +:+ ".json" := FJson obj]> (files w);
            dirs := dirs w; rng := rng w;
            trace := trace w ++ [EvSaveArgs dir name obj] |}.
Proof. done. Qed.

Lemma model_args_run args w :
  Training.resolution args = 128 ∨ Training.resolution args = 256
  ∨ Training.resolution args = 224 →
  ∃ margs,
    Training.model_args args w = (Ok margs, w)
    ∧ margs !! "sample_size" = Some (JInt (Z.of_nat (Training.resolution args))).
Proof.
  unfold Training.model_args.
  intros [Hr|[Hr|Hr]]; rewrite Hr; eexists; (split; [reflexivity|]); reflexivity.
Qed.

Lemma json_load_run path d w :
  files w !! path = Some (FJson d) → json_load path w = (Ok d, w).
Proof.
  intros H. unfold json_load, read_file, mbind, M_bind. by rewrite H.
Qed.



(** ** Runs that return *)

Lemma ensure_dirs_returns {A} (l : list A) d w :
  returns (for_each l (λ _ _, ensure_dir d) ()) w.
Proof.
  unfold returns. revert w. induction l as [|x l IH]; intros w; [by eexists _, _|].
  cbn [for_each]. erewrite bind_run_ok; [|reflexivity]. apply IH.
Qed.

Section ReturnFacts.

Variable predict : unet → tensor → nat → tensor → tensor.
Variable randn_like : json → nat → tensor → tensor.
Variable extract_endpoints : tensor → list tensor.
Variable bilinear : tensor → nat → nat → list R.
Variable scores_batch : tensor → tensor → Counter.

Hypothesis predict_keeps_shape : shape_preserving_net predict.
Hypothesis randn_like_keeps_shape : shape_preserving_noise randn_like.

Lemma run_inference_step_returns blur c gts idx imgs model nk sch states eta n start
    patch plt dir ts lead w :
  DDIM.timesteps (DDIM.noise_schedule sch) n start = Ok ts →
  shape imgs = lead ++ [32; 32] →
  Z.to_nat (kernel_size blur) / 2 < 32 →
  returns (Inference.run_inference_step predict randn_like scores_batch blur c gts idx
             imgs model nk sch states eta n start patch plt dir) w.
Proof.
  intros Hts Hshape Hblur.
  destruct (sample_run predict randn_like sch model imgs imgs eta nk start n ts w
              predict_keeps_shape randn_like_keeps_shape Hts)
    as (out & traj & w1 & evs & Hrun & Hout & _).
  set (diffmaps := TensorOps.abs (TensorOps.sub imgs out)).
  assert (DDIM.generate_samples predict randn_like model sch imgs eta n start patch nk w
          = (Ok (imgs, out, diffmaps, traj), w1)) as Hgen.
  { unfold DDIM.generate_samples. by rewrite (bind_run_ok _ _ _ _ _ Hrun). }
  assert (shape diffmaps = lead ++ [32; 32]) as Hdiff.
  { rewrite <- Hshape. subst diffmaps. unfold TensorOps.abs, TensorOps.sub. by simpl. }
  destruct (apply_blur_ok blur diffmaps lead 32 32 Hdiff Hblur Hblur) as [y Hy].
  set (w2 := {| files := files w1; dirs := dirs w1; rng := rng w1;
                trace := trace w1
                         ++ [EvDiffMapToAnomalyMap diffmaps (Some (3 / 10)%R) blur] |}).
  assert (AnomalyMapper.diff_map_to_anomaly_map diffmaps (Some (3 / 10)%R) blur w1
          = (Ok (AnomalyMapper.apply_threshold (3 / 10)%R y), w2)) as Hmap.
  { unfold AnomalyMapper.diff_map_to_anomaly_map. rewrite bind_emit. fold w2.
    by rewrite Hy. }
  destruct (ensure_dirs_returns (Py.range (Inference.len gts)) dir w2)
    as ([] & w3 & Hdirs).
  unfold returns, Inference.run_inference_step.
  rewrite (bind_run_ok _ _ _ _ _ Hgen). cbv beta iota.
  rewrite (bind_run_ok _ _ _ _ _ Hmap).
  rewrite (bind_run_ok _ _ _ _ _ Hdirs). by eexists _, _.
Qed.

Lemma main_loop_body_returns args model nk sch ts i0 imgs states gts st w :
  DDIM.timesteps (DDIM.noise_schedule sch) (Inference.num_inference_steps args)
    (Inference.start_at_timestep args) = Ok ts →
  six_endpoints extract_endpoints imgs →
  returns (Inference.main_loop_body predict randn_like extract_endpoints bilinear
             scores_batch args diffmap_blur model nk sch (i0, (imgs, states, gts)) st) w.
Proof.
  intros Hts (n & e1 & e2 & e3 & e4 & e5 & e6 & c1 & c2 & c3 & c4
              & h1 & w1 & h2 & w2 & h3 & w3 & h4 & w4 & Hee & He1 & He2 & He3 & He4).
  destruct (fuse_features_run extract_endpoints bilinear imgs i0 w
              e1 e2 e3 e4 e5 e6 n c1 c2 c3 c4 h1 w1 h2 w2 h3 w3 h4 w4
              Hee He1 He2 He3 He4) as (fea & _ & Hshape & Hfuse).
  unfold returns, Inference.main_loop_body. destruct st as [i c].
  rewrite (bind_run_ok _ _ _ _ _ Hfuse). cbv beta iota. rewrite bind_emit.
  set (wa := World _ _ _ _).
  destruct (run_inference_step_returns diffmap_blur c gts 3 fea model nk sch states
              (Inference.eta args) (Inference.num_inference_steps args)
              (Inference.start_at_timestep args) (Inference.patch_imgs args)
              (Inference.plt_imgs args) (Inference.img_dir args) ts
              [n; c1 + (c2 + (c3 + (c4 + 0)))] wa Hts Hshape ltac:(vm_compute; lia))
    as (c' & wb & Hrun).
  rewrite (bind_run_ok _ _ _ _ _ Hrun). by eexists _, _.
Qed.

Lemma main_loop_returns args model nk sch ts (items : list (nat * Inference.test_batch)) :
  DDIM.timesteps (DDIM.noise_schedule sch) (Inference.num_inference_steps args)
    (Inference.start_at_timestep args) = Ok ts →
  Forall (λ item, six_endpoints extract_endpoints item.2.1.1) items →
  ∀ st w,
    returns (for_each items
               (Inference.main_loop_body predict randn_like extract_endpoints bilinear
                  scores_batch args diffmap_blur model nk sch) st) w.
Proof.
  intros Hts. unfold returns.
  induction 1 as [|[i0 [[imgs states] gts]] items Hitem _ IH]; intros st w.
  - by eexists _, _.
  - destruct (main_loop_body_returns args model nk sch ts i0 imgs states gts st w
                Hts Hitem) as (st' & w' & Hbody).
    cbn [for_each]. rewrite (bind_run_ok _ _ _ _ _ Hbody). apply IH.
Qed.

(** The inference program returns when the checkpoint directory holds the
    two configuration files and the checkpoint, the arguments are accepted
    by the scheduler, and the feature extractor yields six endpoint maps
    for every batch. *)
Lemma inference_main_returns args loader w mc tc sd ss ts :
  files w !! (Inference.checkpoint_dir args +:+ "/model_config.json") = Some (FJson mc) →
  files w !! (Inference.checkpoint_dir args +:+ "/train_arg_config.json")
    = Some (FJson tc) →
  files w !! (Inference.checkpoint_dir args +:+ "/" +:+ Inference.checkpoint_name args)
    = Some (FCheckpoint sd) →
  Inference.img_dir args +:+ "/inference_args.json"
    ≠ Inference.checkpoint_dir args +:+ "/" +:+ Inference.checkpoint_name args →
  mc !! "sample_size" = Some ss →
  Inference.train_steps args ≠ 0 →
  Inference.beta_schedule args = "linear" →
  DDIM.timesteps
    {| NoiseSchedule.num_train_timesteps := Inference.train_steps args;
       NoiseSchedule.beta := NoiseSchedule.linear_beta (Inference.train_steps args) |}
    (Inference.num_inference_steps args) (Inference.start_at_timestep args) = Ok ts →
  Forall (λ b : Inference.test_batch, six_endpoints extract_endpoints b.1.1) loader →
  returns (Inference.main predict randn_like extract_endpoints bilinear scores_batch
             args loader) w.
Proof.
  intros Hmc Htc Hsd Hpaths Hss Hsteps Hlinear Hts Hloader.
  unfold returns, Inference.main.
  rewrite (bind_run_ok _ _ _ _ _ (json_load_run _ _ _ Hmc)).
  rewrite (bind_run_ok _ _ _ _ _ (json_load_run _ _ _ Htc)).
  unfold Inference.main_configured. rewrite bind_save_args.
  set (w1 := World _ _ _ _).
  assert (∃ v, (if Inference.patch_imgs args then mret JNull
                else dict_getitem mc "sample_size") w1 = (Ok v, w1)) as [v Hv].
  { destruct (Inference.patch_imgs args); [by eexists|].
    exists ss. unfold dict_getitem. by rewrite Hss. }
  rewrite (bind_run_ok _ _ _ _ _ Hv).
  erewrite bind_run_ok; last first.
  { unfold torch_load, read_file, mbind, M_bind. simpl.
    rewrite lookup_insert_ne by done. rewrite Hsd. reflexivity. }
  unfold DDIM.make_scheduler, NoiseSchedule.build. rewrite Hlinear.
  destruct (Inference.train_steps args =? 0) eqn:Hz; [by apply Nat.eqb_eq in Hz|].
  cbn [String.eqb Ascii.eqb Bool.eqb]. cbv beta iota.
  erewrite bind_run_ok; [|reflexivity].
  set (sch := {| DDIM.noise_schedule := _ |}).
  set (model := {| unet_config := mc |}).
  set (nk := Py.get tc "noise_kind" (JStr "gaussian")).
  assert (Forall (λ item : nat * Inference.test_batch,
                    six_endpoints extract_endpoints item.2.1.1) (Py.enumerate loader))
    as Hitems.
  { apply Forall_forall. intros [i b] Hin. unfold Py.enumerate in Hin.
    apply list_elem_of_lookup in Hin as [k Hk]. apply lookup_zip_with_Some in Hk
      as (i' & b' & [= <- <-] & _ & Hb).
    eapply Forall_lookup_1 in Hloader; [|exact Hb]. done. }
  destruct (main_loop_returns args model nk sch ts (Py.enumerate loader) Hts Hitems
              (0, ∅) w1) as ([i c] & w2 & Hloop).
  pose proof (emits_main_loop predict randn_like extract_endpoints bilinear scores_batch
                (λ _, True) args diffmap_blur model nk sch loader
                ltac:(done) ltac:(done) ltac:(done) ltac:(done) w1) as [_ Hres].
  rewrite Hloop in Hres. destruct (Hres _ eq_refl) as (ms & Hms & Hc). simpl in Hc.
  rewrite (bind_run_ok _ _ _ _ _ Hloop). cbv beta iota.
  assert (∃ avg, Counter_divide_all c (length loader) w2 = (Ok avg, w2)) as [avg Havg].
  { unfold Counter_divide_all. case_bool_decide; [by eexists|].
    destruct loader as [|b loader]; [|by eexists].
    apply Forall2_nil_inv_l in Hms. subst ms c. simpl in *. by rewrite dom_empty_L in *. }
  rewrite (bind_run_ok _ _ _ _ _ Havg).
  erewrite bind_run_ok; [|unfold dict_getitem; rewrite Hss; reflexivity].
  by eexists _, _.
Qed.

End ReturnFacts.

(** ** The score accumulator *)


